(** * SuperStore KPI dashboard (app.py): filter pipeline, KPIs and aggregates

    A shallow embedding of the dashboard script.  Decimal columns are exact
    rationals ([Qc]); a float cell that may hold NaN is an [option Qc] with
    [None] for NaN.  Timestamps are seconds since the epoch, calendar dates
    are days since the epoch.  Data frames live in a store of objects so
    that aliasing ([x if sel else y]) and in-place updates are visible, and
    the widgets and charts a run renders are collected on a page.

    The pandas operations the script calls ([isin], boolean indexing,
    [groupby], [resample], [rolling], [sort_values]) are written out after
    their documented behaviour.  Page configuration, CSS, chart styling and
    the formatting of numbers as text are not modelled.

    What the embedding assumes of a workbook and of the libraries:
    - every row has an order date and its four numeric cells; only the
      text cells may be blank ([None]);
    - decimals are exact and integers unbounded, where pandas computes in
      float64 and int64;
    - [sort_values] with the default sort kind is any function that
      returns its input rearranged into the requested order; which of
      several tied rows comes first is left open, since the default kind
      is not stable;
    - a widget is an element on the page holding what it was given, and
      its return value is an input of the run.  With a workbook without
      rows the date inputs are given no bounds; [st.date_input] then
      raises, so what a whole run displays is stated for workbooks with
      at least one row; the further properties of a whole run also take
      selections the multiselects can return ([offered]). *)

From Stdlib Require Import QArith Qcanon ZArith.
From Stdlib Require OrderedTypeEx.
From stdpp Require Import base numbers list strings option sorting sets.

Local Open Scope Z_scope.
Set Warnings "-clear-no-such-hyp".

(** ** Cells and columns *)

(** A float64 cell: [None] is NaN. *)
Abbreviation cell := (option Qc).

Definition series_sum (xs : list Qc) : Qc := foldr Qcplus 0%Qc xs.

Definition Zsum (xs : list Z) : Z := foldr Z.add 0 xs.

(** [Series.mean()]: NaN on an empty series. *)
Definition series_mean (xs : list Qc) : cell :=
  match xs with
  | [] => None
  | _ => Some (series_sum xs / Qc_of_Z (Z.of_nat (length xs)))%Qc
  end.

(** [Series.replace(0, 1)]. *)
Definition replace_0_1 (x : Qc) : Qc :=
  if decide (x = 0%Qc) then 1%Qc else x.

(** Element-wise float division of two series entries; a zero divisor gives
    a non-finite value (inf or NaN), which is [None] here. *)
Definition series_div (a b : Qc) : cell :=
  if decide (b = 0%Qc) then None else Some (a / b)%Qc.

(** ** Rows and data frames *)

Record Row : Type := mkRow {
  order_date : Z;
  region : option string;
  state : option string;
  category : option string;
  sub_category : option string;
  product_name : option string;
  sales : Qc;
  quantity : Z;
  profit : Qc;
  discount : Qc;
  extra : list (string * Qc)
}.

(** A frame: its rows (each with the cells of the spreadsheet columns the
    script reads and of the float columns assigned later by
    [df[name] = ...]), the names of those assigned columns, and the column
    moved to the index by [set_index], if any. *)
Record DataFrame : Type := mkFrame {
  rows : list Row;
  extra_columns : list string;
  index_name : option string
}.

Definition base_columns : list string :=
  ["Order Date"; "Region"; "State"; "Category"; "Sub-Category";
   "Product Name"; "Sales"; "Quantity"; "Profit"; "Discount"]%string.

Definition columns (df : DataFrame) : list string :=
  filter (λ c, Some c ≠ index_name df) base_columns ++ extra_columns df.

(** The same frame attributes over other rows ([df[mask]], [sort_values],
    [copy]). *)
Definition with_rows (df : DataFrame) (rs : list Row) : DataFrame :=
  {| rows := rs; extra_columns := extra_columns df;
     index_name := index_name df |}.

(** What [pd.read_excel] returns: no assigned column, the default index. *)
Definition frame_of (rs : list Row) : DataFrame :=
  {| rows := rs; extra_columns := []; index_name := None |}.

(** [df.empty] *)
Definition empty (df : DataFrame) : bool :=
  match rows df with [] => true | _ => false end.

(** ** Sidebar filters (app.py, lines 136-174) *)

(** [Series.dropna()] *)
Definition dropna {A} (c : list (option A)) : list A := omap id c.

(** [Series.unique()]: values in order of first appearance. *)
Fixpoint unique_from (seen : list string) (l : list string) : list string :=
  match l with
  | [] => []
  | x :: l =>
      if bool_decide (x ∈ seen) then unique_from seen l
      else x :: unique_from (x :: seen) l
  end.

Definition unique (l : list string) : list string := unique_from [] l.

(** [sorted(...)] on strings: insertion into an ordered prefix, after equal
    keys, so the sort is stable. *)
Fixpoint insert_sorted {A} (le : A → A → bool) (x : A) (l : list A) : list A :=
  match l with
  | [] => [x]
  | y :: l' => if le y x then y :: insert_sorted le x l' else x :: l
  end.

Definition sort_by {A} (le : A → A → bool) (l : list A) : list A :=
  foldl (λ acc x, insert_sorted le x acc) [] l.

Definition sorted (l : list string) : list string := sort_by String.leb l.

(** [sorted(df[col].dropna().unique())] *)
Definition options (col : Row → option string) (rs : list Row) : list string :=
  sorted (unique (dropna (col <$> rs))).

(** [df[col].isin(selected)]: a boolean mask; a missing value is in no
    selection. *)
Definition isin (selected : list string) (c : list (option string)) : list bool :=
  (λ v, match v with
        | Some s => bool_decide (s ∈ selected)
        | None => false
        end) <$> c.

(** [df[mask]]: the rows at which the mask is true, in order. *)
Fixpoint boolean_index (rs : list Row) (mask : list bool) : list Row :=
  match rs, mask with
  | r :: rs', b :: mask' =>
      if b then r :: boolean_index rs' mask' else boolean_index rs' mask'
  | _, _ => []
  end.

(** [df[df[col].isin(selected)] if selected else df] on the rows. *)
Definition categorical_filter (col : Row → option string)
    (selected : list string) (rs : list Row) : list Row :=
  match selected with
  | [] => rs
  | _ => boolean_index rs (isin selected (col <$> rs))
  end.

(** [pd.to_datetime(d)] of a calendar date: midnight of that day. *)
Definition to_datetime (d : Z) : Z := 86400 * d.

(** [(df["Order Date"] >= from) & (df["Order Date"] <= to)] *)
Definition date_mask (from_date to_date : Z) (rs : list Row) : list bool :=
  (λ r, bool_decide (to_datetime from_date ≤ order_date r)
        && bool_decide (order_date r ≤ to_datetime to_date)) <$> rs.

Definition date_filter (from_date to_date : Z) (rs : list Row) : list Row :=
  boolean_index rs (date_mask from_date to_date rs).

(** The values returned by the sidebar widgets. *)
Inductive Theme : Type := Dark | Light.
Inductive Granularity : Type := Daily | Weekly | Monthly.
Inductive Metric : Type :=
  KSales | KQuantity | KProfit | KMarginRate | KAvgDiscount.

Record Selection : Type := mkSelection {
  selected_regions : list string;
  selected_states : list string;
  selected_categories : list string;
  selected_subcategories : list string;
  from_date : Z;
  to_date : Z
}.

(** The rows of [df_filtered] after each sidebar step, and of [df]. *)
Definition region_step (sel : Selection) (rs : list Row) : list Row :=
  categorical_filter region (selected_regions sel) rs.
Definition state_step (sel : Selection) (rs : list Row) : list Row :=
  categorical_filter state (selected_states sel) (region_step sel rs).
Definition category_step (sel : Selection) (rs : list Row) : list Row :=
  categorical_filter category (selected_categories sel) (state_step sel rs).
Definition subcategory_step (sel : Selection) (rs : list Row) : list Row :=
  categorical_filter sub_category (selected_subcategories sel)
    (category_step sel rs).
Definition working_rows (sel : Selection) (rs : list Row) : list Row :=
  date_filter (from_date sel) (to_date sel) (subcategory_step sel rs).

(** The option lists offered by the four multiselects. *)
Definition all_regions (sel : Selection) (rs : list Row) : list string :=
  options region rs.
Definition all_states (sel : Selection) (rs : list Row) : list string :=
  options state (region_step sel rs).
Definition all_categories (sel : Selection) (rs : list Row) : list string :=
  options category (state_step sel rs).
Definition all_subcategories (sel : Selection) (rs : list Row) : list string :=
  options sub_category (category_step sel rs).

(** ** Exceptions *)

Inductive Exn : Type :=
  | ZeroDivisionError
  | NameError (what : string).

Inductive result (A : Type) : Type :=
  | Ok (a : A)
  | Raise (e : Exn).
Arguments Ok {A} a.
Arguments Raise {A} e.

Definition result_bind {A B} (m : result A) (k : A → result B) : result B :=
  match m with
  | Ok a => k a
  | Raise e => Raise e
  end.

Fixpoint result_map {A B} (f : A → result B) (l : list A) : result (list B) :=
  match l with
  | [] => Ok []
  | x :: l' =>
      result_bind (f x) (λ y,
      result_bind (result_map f l') (λ ys, Ok (y :: ys)))
  end.

(** Scalar [a / b]: raises on a zero divisor. *)
Definition checked_div (a b : Qc) : result Qc :=
  if decide (b = 0%Qc) then Raise ZeroDivisionError else Ok (a / b)%Qc.

(** ** KPI calculations (app.py, lines 176-187) *)

Record KPIs : Type := mkKPIs {
  total_sales : Qc;
  total_quantity : Z;
  total_profit : Qc;
  margin_rate : Qc;
  avg_discount : cell
}.

Definition compute_kpis (df : DataFrame) : result KPIs :=
  if empty df then
    Ok {| total_sales := 0%Qc; total_quantity := 0; total_profit := 0%Qc;
          margin_rate := 0%Qc; avg_discount := Some 0%Qc |}
  else
    let total_sales := series_sum (sales <$> rows df) in
    let total_quantity := Zsum (quantity <$> rows df) in
    let total_profit := series_sum (profit <$> rows df) in
    result_bind
      (if decide (total_sales = 0%Qc) then Ok 0%Qc
       else checked_div total_profit total_sales)
      (λ margin_rate,
        let avg_discount :=
          if bool_decide ("Discount"%string ∈ columns df)
          then series_mean (discount <$> rows df)
          else Some 0%Qc in
        Ok {| total_sales := total_sales; total_quantity := total_quantity;
              total_profit := total_profit; margin_rate := margin_rate;
              avg_discount := avg_discount |}).

(** 0.15 *)
Definition margin_target : Qc := (Qc_of_Z 15 / Qc_of_Z 100)%Qc.

Definition margin_color (margin_rate : Qc) : string :=
  if decide (margin_rate < margin_target)%Qc then "#FF4B4B" else "#1E90FF".

(** ** Calendar periods used by [resample] *)

(** The day a timestamp falls on. *)
Definition day_of (ts : Z) : Z := ts `div` 86400.

(** Proleptic Gregorian (year, month, day) of a day number. *)
Definition civil_from_days (d : Z) : Z * Z * Z :=
  let z := d + 719468 in
  let era := z `div` 146097 in
  let doe := z - era * 146097 in
  let yoe := (doe - doe `div` 1460 + doe `div` 36524 - doe `div` 146096)
               `div` 365 in
  let doy := doe - (365 * yoe + yoe `div` 4 - yoe `div` 100) in
  let mp := (5 * doy + 2) `div` 153 in
  let dd := doy - (153 * mp + 2) `div` 5 + 1 in
  let m := if bool_decide (mp < 10) then mp + 3 else mp - 9 in
  let y := yoe + era * 400 in
  (if bool_decide (m ≤ 2) then y + 1 else y, m, dd).

(** The index of the period a timestamp belongs to: its day ("D"), its
    week ending on Sunday ("W"; day 3 is Sunday 1970-01-04), its calendar
    month ("M"). *)
Definition period_of (g : Granularity) (ts : Z) : Z :=
  match g with
  | Daily => day_of ts
  | Weekly => (day_of ts + 3) `div` 7
  | Monthly => let '(y, m, _) := civil_from_days (day_of ts) in 12 * y + (m - 1)
  end.

(** ** Aggregated rows: resample buckets and groupby groups *)

(** One row of an aggregated frame: the four aggregated columns and the
    two computed from them. *)
Record Agg (K : Type) : Type := mkAgg {
  agg_key : K;
  agg_sales : Qc;
  agg_quantity : Z;
  agg_profit : Qc;
  agg_discount : cell;
  agg_margin_rate : cell;
  agg_avg_discount : cell
}.
Arguments mkAgg {K}.
Arguments agg_key {K}.
Arguments agg_sales {K}.
Arguments agg_quantity {K}.
Arguments agg_profit {K}.
Arguments agg_discount {K}.
Arguments agg_margin_rate {K}.
Arguments agg_avg_discount {K}.

(** [.agg({"Sales": "sum", "Quantity": "sum", "Profit": "sum",
    "Discount": "mean"})] on the rows of one bucket or group, then
    ["Margin Rate"] = Profit / Sales.replace(0, 1) and
    ["Avg Discount"] = Discount. *)
Definition aggregate {K} (k : K) (rs : list Row) : Agg K :=
  let s := series_sum (sales <$> rs) in
  let p := series_sum (profit <$> rs) in
  let d := series_mean (discount <$> rs) in
  {| agg_key := k;
     agg_sales := s;
     agg_quantity := Zsum (quantity <$> rs);
     agg_profit := p;
     agg_discount := d;
     agg_margin_rate := series_div p (replace_0_1 s);
     agg_avg_discount := d |}.

(** [df_agg[selected_kpi]] for one row. *)
Definition metric_value {K} (kpi : Metric) (a : Agg K) : cell :=
  match kpi with
  | KSales => Some (agg_sales a)
  | KQuantity => Some (Qc_of_Z (agg_quantity a))
  | KProfit => Some (agg_profit a)
  | KMarginRate => agg_margin_rate a
  | KAvgDiscount => agg_avg_discount a
  end.

(** [df_sorted.resample(rule).agg(agg_dict)]: one bucket per period from
    the first to the last period that holds a row, empty ones included. *)
Definition resample (g : Granularity) (rs : list Row) : list (Agg Z) :=
  match rs with
  | [] => []
  | r0 :: _ =>
      let p0 := period_of g (order_date r0) in
      let ps := (λ r, period_of g (order_date r)) <$> rs in
      let lo := foldr Z.min p0 ps in
      let hi := foldr Z.max p0 ps in
      (λ p, aggregate p
              (filter (λ r, period_of g (order_date r) = p) rs))
        <$> seqZ lo (hi - lo + 1)
  end.

Definition rolling_window (g : Granularity) : nat :=
  match g with
  | Daily => 30
  | Weekly => 4
  | Monthly => 3
  end.

(** [Series.rolling(window).mean()], with [min_periods] at its default,
    the window size: at each position the window is the last [window]
    entries up to it; fewer than [window] observations (entries that are
    not NaN) in it give NaN, otherwise the mean of the observations. *)
Definition rolling_mean (window : nat) (xs : list cell) : list cell :=
  (λ i, let w := drop (S i - window) (take (S i) xs) in
        let obs := dropna w in
        if bool_decide (length obs < window)%nat then None
        else series_mean obs) <$> seq 0 (length xs).

(** [df.groupby(col, as_index=False)]: one group per key that occurs, keys
    in sorted order, rows with a missing key dropped. *)
Definition groupby (col : Row → option string) (rs : list Row)
    : list (string * list Row) :=
  (λ k, (k, filter (λ r, col r = Some k) rs)) <$> options col rs.

(** [df.groupby("Product Name", as_index=False).agg({...})] with the two
    computed columns (lines 299-306). *)
Definition product_grouped (rs : list Row) : list (Agg string) :=
  (λ '(k, g), aggregate k g) <$> groupby product_name rs.

(** [df.groupby(col, as_index=False)["Sales"].sum()] and the same for
    ["Profit"]. *)
Definition grouped_sum (col : Row → option string) (val : Row → Qc)
    (rs : list Row) : list (string * Qc) :=
  (λ '(k, g), (k, series_sum (val <$> g))) <$> groupby col rs.

(** Descending order on a float column, NaN last
    ([ascending=False, na_position="last"]). *)
Definition cell_ge (a b : cell) : bool :=
  match a, b with
  | _, None => true
  | None, Some _ => false
  | Some x, Some y => bool_decide (y ≤ x)%Qc
  end.

(** The row-wise [lambda row: row["Profit"] / row["Sales"]
    if row["Sales"] != 0 else 0] (line 383). *)
Definition profit_margin (r : Row) : result Qc :=
  if decide (sales r ≠ 0%Qc) then checked_div (profit r) (sales r)
  else Ok 0%Qc.

Definition sort_stable (A : Type) (le : A → A → bool) (l : list A) : list A :=
  sort_by le l.

(** What every sort kind of [sort_values] guarantees: the rows come back
    rearranged in the requested order. *)
Definition sort_contract
    (sort_values : ∀ A : Type, (A → A → bool) → list A → list A) : Prop :=
  ∀ (A : Type) (le : A → A → bool) (l : list A),
    (∀ x y, le x y = true ∨ le y x = true) →
    (∀ x y z, le x y = true → le y z = true → le x z = true) →
    sort_values A le l ≡ₚ l ∧ StronglySorted (λ x y, le x y = true) (sort_values A le l).

(** ** The page and the store *)

Inductive Element : Type :=
  | Multiselect (label : string) (opts : list string)
  | DateInputs (bounds : option (Z * Z))
  | SidebarError (msg : string)
  | Warning (msg : string)
  | KpiTiles (k : KPIs) (color : string)
  | Gauge (value : Qc) (color : string)
  | AreaChart (kpi : Metric) (g : Granularity) (window : nat)
      (points : list (Z * cell * cell))
  | BarTop10 (kpi : Metric) (bars : list (Agg string))
  | PieRegion (slices : list (string * Qc))
  | Download (header : list string) (body : list Row)
  | Table (header : list string) (body : list Row)
  | LineSalesProfit (points : list (Z * Qc * Qc))
  | BarCategoryProfit (bars : list (string * Qc))
  | ScatterDiscountMargin (points : list (Qc * option Qc * option string))
  | Treemap (tiles : list (string * Qc)).

(** The objects the script's variables refer to, and what has been
    rendered so far. *)
Record World : Type := mkWorld {
  heap : list DataFrame;
  page : list Element
}.

Definition M (A : Type) : Type := World → result (A * World).

Definition ret {A} (a : A) : M A := λ w, Ok (a, w).

Definition bind {A B} (m : M A) (k : A → M B) : M B :=
  λ w, match m w with
       | Ok (a, w') => k a w'
       | Raise e => Raise e
       end.

Notation "'do' x <- m ; k" := (bind m (λ x, k))
  (at level 10, x name, m at level 100, k at level 200).
Notation "m ;; k" := (bind m (λ _, k))
  (at level 100, k at level 200, right associativity).

Definition lift {A} (r : result A) : M A :=
  λ w, match r with
       | Ok a => Ok (a, w)
       | Raise e => Raise e
       end.

(** A new object. *)
Definition alloc (df : DataFrame) : M nat :=
  λ w, Ok (length (heap w), {| heap := heap w ++ [df]; page := page w |}).

Definition read (r : nat) : M DataFrame :=
  λ w, match heap w !! r with
       | Some df => Ok (df, w)
       | None => Raise (NameError "unbound")
       end.

(** An in-place update of the object behind a reference. *)
Definition modify (r : nat) (f : DataFrame → DataFrame) : M unit :=
  λ w, match heap w !! r with
       | Some df => Ok ((), {| heap := <[r := f df]> (heap w); page := page w |})
       | None => Raise (NameError "unbound")
       end.

Definition render (e : Element) : M unit :=
  λ w, Ok ((), {| heap := heap w; page := page w ++ [e] |}).

(** ** The script *)

Record Inputs : Type := mkInputs {
  theme_choice : Theme;
  agg_level : Granularity;
  selection : Selection;
  selected_kpi : Metric
}.

Record Refs : Type := mkRefs {
  df_original : nat;
  df_filtered : nat;
  df : nat
}.

(** One sidebar filter: the multiselect is offered the values of the
    current [df_filtered]; a non-empty selection makes a new frame, an
    empty one leaves the variable on the same object. *)
Definition sidebar_filter (label : string) (col : Row → option string)
    (selected : list string) (r : nat) : M nat :=
  do f <- read r;
  render (Multiselect label (options col (rows f)));;
  match selected with
  | [] => ret r
  | _ => alloc (with_rows f (boolean_index (rows f) (isin selected (col <$> rows f))))
  end.

(** [df["Order Date"].min()] and [.max()]; [None] for NaT on no rows. *)
Definition date_bounds (rs : list Row) : option (Z * Z) :=
  match rs with
  | [] => None
  | r0 :: _ =>
      Some (foldr Z.min (order_date r0) (order_date <$> rs),
            foldr Z.max (order_date r0) (order_date <$> rs))
  end.

(** Lines 136-174. *)
Definition sidebar (sel : Selection) : M Refs :=
  let df_original := 0%nat in
  do r1 <- sidebar_filter "Region(s)" region (selected_regions sel) df_original;
  do r2 <- sidebar_filter "State(s)" state (selected_states sel) r1;
  do r3 <- sidebar_filter "Category(ies)" category (selected_categories sel) r2;
  do r4 <- sidebar_filter "Sub-Category(ies)" sub_category
             (selected_subcategories sel) r3;
  do f <- read r4;
  do o <- read df_original;
  render (DateInputs (if empty f then date_bounds (rows o)
                      else date_bounds (rows f)));;
  (if bool_decide (from_date sel > to_date sel)
   then render (SidebarError "From Date must be earlier than To Date.")
   else ret ());;
  do d <- alloc (with_rows f
                   (date_filter (from_date sel) (to_date sel) (rows f)));
  ret {| df_original := df_original; df_filtered := r4; df := d |}.

(** [df[name] = col] for a name that is not a spreadsheet column. *)
Definition set_extra (name : string) (v : Qc) (r : Row) : Row :=
  {| order_date := order_date r; region := region r; state := state r;
     category := category r; sub_category := sub_category r;
     product_name := product_name r; sales := sales r;
     quantity := quantity r; profit := profit r; discount := discount r;
     extra := filter (λ kv, kv.1 ≠ name) (extra r) ++ [(name, v)] |}.

Definition assign (name : string) (col : list Qc) (f : DataFrame) : DataFrame :=
  {| rows := zip_with (λ r v, set_extra name v r) (rows f) col;
     extra_columns :=
       if bool_decide (name ∈ extra_columns f) then extra_columns f
       else extra_columns f ++ [name];
     index_name := index_name f |}.

Definition get_extra (name : string) (r : Row) : option Qc :=
  (list_find (λ kv, kv.1 = name) (extra r)) ≫= (λ p, Some p.2.2).

(** [df.set_index(col, inplace=True)] *)
Definition set_index (col : string) (f : DataFrame) : DataFrame :=
  {| rows := rows f; extra_columns := extra_columns f;
     index_name := Some col |}.

Section Script.

(** The sort behind [DataFrame.sort_values], whose default kind is
    "quicksort": the order of rows with equal keys is whatever that sort
    leaves. *)
Variable sort_values : ∀ A : Type, (A → A → bool) → list A → list A.

(** [product_grouped.sort_values(by=selected_kpi, ascending=False)] and
    [.head(10)] (lines 307-308). *)
Definition top_10 (kpi : Metric) (rs : list Row) : list (Agg string) :=
  take 10 (sort_values _
             (λ a b, cell_ge (metric_value kpi a) (metric_value kpi b))
             (product_grouped rs)).

(** The area chart's frame: [df_agg] with its rolling average column
    (lines 262-275). *)
Definition time_series (g : Granularity) (kpi : Metric) (rs : list Row)
    : list (Z * cell * cell) :=
  let df_agg := resample g rs in
  let ys := metric_value kpi <$> df_agg in
  zip (zip (agg_key <$> df_agg) ys) (rolling_mean (rolling_window g) ys).

(** Lines 246-416, run when [df] is not empty. *)
Definition charts (inp : Inputs) (refs : Refs) : M unit :=
  let kpi := selected_kpi inp in
  do d <- read (df refs);
  do df_sorted <-
    alloc (with_rows d
             (sort_values _
                (λ a b, bool_decide (order_date a ≤ order_date b)) (rows d)));
  modify df_sorted (set_index "Order Date");;
  do s <- read df_sorted;
  let fig_area :=
    AreaChart kpi (agg_level inp) (rolling_window (agg_level inp))
      (time_series (agg_level inp) kpi (rows s)) in
  do d <- read (df refs);
  let fig_bar := BarTop10 kpi (top_10 kpi (rows d)) in
  let fig_region := PieRegion (grouped_sum region sales (rows d)) in
  render fig_area;;
  render fig_bar;;
  render fig_region;;
  do d <- read (df refs);
  render (Download (columns d) (rows d));;
  render (Table (columns d) (rows d));;
  do s <- read df_sorted;
  let df_monthly := resample Monthly (rows s) in
  let fig_sales_profit :=
    LineSalesProfit
      ((λ a, (agg_key a, agg_sales a, agg_profit a)) <$> df_monthly) in
  do d <- read (df refs);
  let category_profit :=
    sort_values _ (λ a b : string * Qc, bool_decide (b.2 ≤ a.2)%Qc)
      (grouped_sum category profit (rows d)) in
  let fig_profit_category := BarCategoryProfit category_profit in
  do margins <- lift (result_map profit_margin (rows d));
  modify (df refs) (assign "Profit Margin" margins);;
  do d <- read (df refs);
  let fig_discount_profit :=
    ScatterDiscountMargin
      ((λ r, (discount r, get_extra "Profit Margin" r, category r))
         <$> rows d) in
  let fig_treemap := Treemap (grouped_sum sub_category sales (rows d)) in
  render fig_sales_profit;;
  render fig_profit_category;;
  render fig_discount_profit;;
  render fig_treemap.

(** The whole script, from the sidebar on. *)
Definition app (inp : Inputs) : M Refs :=
  do refs <- sidebar (selection inp);
  do d <- read (df refs);
  do k <- lift (compute_kpis d);
  render (KpiTiles k (margin_color (margin_rate k)));;
  render (Gauge (margin_rate k * Qc_of_Z 100)%Qc (margin_color (margin_rate k)));;
  (if empty d
   then render (Warning "No data available for the selected filters and date range.")
   else charts inp refs);;
  ret refs.

(** One run on the loaded data set: [load_data()] is object 0. *)
Definition run (data : list Row) (inp : Inputs) : result (Refs * World) :=
  app inp {| heap := [frame_of data]; page := [] |}.

End Script.

(** ** Predicates used in the statements *)

(** The rows a categorical filter keeps. *)
Definition keeps (col : Row → option string) (selected : list string)
    (r : Row) : Prop :=
  selected = [] ∨ col r ∈ Some <$> selected.

Global Instance keeps_dec col selected r : Decision (keeps col selected r).
Proof. unfold keeps. apply _. Defined.

Definition in_range (from_date to_date : Z) (r : Row) : Prop :=
  to_datetime from_date ≤ order_date r ≤ to_datetime to_date.

Global Instance in_range_dec f t r : Decision (in_range f t r).
Proof. unfold in_range. apply _. Defined.

(** [s'] selects no more than [s] on one dimension: [s] is "all", or [s']
    names some of the values [s] names. *)
Definition narrower (s' s : list string) : Prop :=
  s = [] ∨ (s' ≠ [] ∧ s' ⊆ s).

(** [sel'] adds restrictions to [sel]. *)
Definition restricts (sel' sel : Selection) : Prop :=
  narrower (selected_regions sel') (selected_regions sel) ∧
  narrower (selected_states sel') (selected_states sel) ∧
  narrower (selected_categories sel') (selected_categories sel) ∧
  narrower (selected_subcategories sel') (selected_subcategories sel) ∧
  from_date sel ≤ from_date sel' ∧ to_date sel' ≤ to_date sel.

(** ** Sample data *)

Definition sample_row (day : Z) (reg prod : string) (s p : Z) : Row :=
  {| order_date := to_datetime day; region := Some reg;
     state := Some "New York"%string; category := Some "Technology"%string;
     sub_category := Some "Phones"%string; product_name := Some prod;
     sales := Qc_of_Z s; quantity := 1; profit := Qc_of_Z p;
     discount := 0%Qc; extra := [] |}.

(** Three orders dated 2023-01-01, 02 and 03 (days 19358 to 19360). *)
Definition sample_data : list Row :=
  [sample_row 19358 "East" "Alpha" 100 10;
   sample_row 19359 "West" "Beta" 200 20;
   sample_row 19360 "East" "Alpha" 300 (-5)].

Definition select_all : Selection :=
  {| selected_regions := []; selected_states := [];
     selected_categories := []; selected_subcategories := [];
     from_date := 19358; to_date := 19360 |}.

Definition select_east : Selection :=
  {| selected_regions := ["East"%string]; selected_states := [];
     selected_categories := []; selected_subcategories := [];
     from_date := 19359; to_date := 19360 |}.

(** The margin of one transaction. *)
Definition margin_of (r : Row) : Qc :=
  if decide (sales r = 0%Qc) then 0%Qc else (profit r / sales r)%Qc.

(** The elements [charts] adds to the page, from the frame behind [df]. *)
Definition chart_elements
    (sort_values : ∀ A : Type, (A → A → bool) → list A → list A)
    (inp : Inputs) (d : DataFrame) : list Element :=
  let by_date :=
    sort_values _ (λ a b, bool_decide (order_date a ≤ order_date b)) (rows d) in
  let d' := assign "Profit Margin" (margin_of <$> rows d) d in
  [AreaChart (selected_kpi inp) (agg_level inp) (rolling_window (agg_level inp))
     (time_series (agg_level inp) (selected_kpi inp) by_date);
   BarTop10 (selected_kpi inp) (top_10 sort_values (selected_kpi inp) (rows d));
   PieRegion (grouped_sum region sales (rows d));
   Download (columns d) (rows d);
   Table (columns d) (rows d);
   LineSalesProfit
     ((λ a, (agg_key a, agg_sales a, agg_profit a)) <$> resample Monthly by_date);
   BarCategoryProfit
     (sort_values _ (λ a b : string * Qc, bool_decide (b.2 ≤ a.2)%Qc)
        (grouped_sum category profit (rows d)));
   ScatterDiscountMargin
     ((λ r, (discount r, get_extra "Profit Margin" r, category r)) <$> rows d');
   Treemap (grouped_sum sub_category sales (rows d'))].

(** What the sidebar renders. *)
Definition sidebar_elements (sel : Selection) (data : list Row) : list Element :=
  [Multiselect "Region(s)" (all_regions sel data);
   Multiselect "State(s)" (all_states sel data);
   Multiselect "Category(ies)" (all_categories sel data);
   Multiselect "Sub-Category(ies)" (all_subcategories sel data);
   DateInputs (if empty (frame_of (subcategory_step sel data))
               then date_bounds data
               else date_bounds (subcategory_step sel data))]
  ++ (if bool_decide (from_date sel > to_date sel)
      then [SidebarError "From Date must be earlier than To Date."]
      else []).

Definition zero_kpis : KPIs :=
  {| total_sales := 0%Qc; total_quantity := 0; total_profit := 0%Qc;
     margin_rate := 0%Qc; avg_discount := Some 0%Qc |}.

(** A selection whose date range is reversed. *)
Definition select_reversed : Selection :=
  {| selected_regions := []; selected_states := [];
     selected_categories := []; selected_subcategories := [];
     from_date := 19360; to_date := 19358 |}.

Definition sample_inputs (g : Granularity) (sel : Selection) : Inputs :=
  {| theme_choice := Dark; agg_level := g; selection := sel;
     selected_kpi := KSales |}.

(** An order line given away: no revenue, a loss of 5. *)
Definition giveaway : Row :=
  {| order_date := to_datetime 19358; region := Some "East"%string;
     state := Some "New York"%string; category := Some "Technology"%string;
     sub_category := Some "Phones"%string;
     product_name := Some "Gamma"%string;
     sales := 0%Qc; quantity := 1; profit := Qc_of_Z (-5);
     discount := 1%Qc; extra := [] |}.

(** The cells of the spreadsheet columns of a row. *)
Definition base_cells (r : Row) :=
  (order_date r, region r, state r, category r, sub_category r,
   product_name r, sales r, quantity r, profit r, discount r).

Definition by_order_date (a b : Row) : bool :=
  bool_decide (order_date a ≤ order_date b).

(** In the words of the specification: the arithmetic mean of the metric
    over the positions [lo] to [hi], undefined when an entry there is. *)
Definition mean_over_positions (ys : list cell) (lo hi : nat) : cell :=
  mapM (λ j, mjoin (ys !! j)) (seq lo (S hi - lo)) ≫= series_mean.

(** One order in each of January, February and March 2023. *)
Definition quarter_data : list Row :=
  [sample_row 19358 "East" "Alpha" 100 10;
   sample_row 19389 "West" "Beta" 200 20;
   sample_row 19417 "East" "Alpha" 300 (-5)].


(** The descending order requested from [sort_values]. *)
Definition metric_desc {K} (kpi : Metric) (a b : Agg K) : bool :=
  cell_ge (metric_value kpi a) (metric_value kpi b).





(** ** Predicates used in the further statements *)

(** A row passes every active filter of a selection. *)
Definition passes (sel : Selection) (r : Row) : Prop :=
  keeps region (selected_regions sel) r ∧
  keeps state (selected_states sel) r ∧
  keeps category (selected_categories sel) r ∧
  keeps sub_category (selected_subcategories sel) r ∧
  in_range (from_date sel) (to_date sel) r.

Global Instance passes_dec sel r : Decision (passes sel r).
Proof. unfold passes. apply _. Defined.

(** The number of sidebar filters with a non-empty selection. *)
Definition active_filters (sel : Selection) : nat :=
  length (filter (λ s : list string, s ≠ [])
            [selected_regions sel; selected_states sel;
             selected_categories sel; selected_subcategories sel]).

(** The gauge's threshold line and reference value (15 per cent). *)
Definition gauge_threshold : Qc := Qc_of_Z 15.

(** An order date without a time of day. *)
Definition at_midnight (r : Row) : Prop :=
  order_date r = to_datetime (day_of (order_date r)).

(** The colours of the margin KPI. *)
Definition red : string := "#FF4B4B".
Definition blue : string := "#1E90FF".

(** The first and the last period that hold a row; [None] on no rows. *)
Definition period_span (g : Granularity) (rs : list Row) : option (Z * Z) :=
  match rs with
  | [] => None
  | r0 :: _ =>
      let p0 := period_of g (order_date r0) in
      let ps := (λ r, period_of g (order_date r)) <$> rs in
      Some (foldr Z.min p0 ps, foldr Z.max p0 ps)
  end.

(** A row falls in a period. *)
Definition in_period (g : Granularity) (p : Z) (r : Row) : Prop :=
  period_of g (order_date r) = p.

Global Instance in_period_dec g p r : Decision (in_period g p r).
Proof. unfold in_period. apply _. Defined.

(** Orders on 2023-01-01 and 2023-01-03, none on the day between. *)
Definition gap_data : list Row :=
  [sample_row 19358 "East" "Alpha" 100 10;
   sample_row 19360 "East" "Alpha" 300 (-5)].

(** Values the four multiselects can return for a data set: each returns
    some of the options it offered. *)
Definition offered (sel : Selection) (data : list Row) : Prop :=
  selected_regions sel ⊆ all_regions sel data ∧
  selected_states sel ⊆ all_states sel data ∧
  selected_categories sel ⊆ all_categories sel data ∧
  selected_subcategories sel ⊆ all_subcategories sel data.

(** Values the two date inputs can return when given the bounds [b]: days
    between the day of the earliest and the day of the latest order date.
    Without bounds the inputs return nothing. *)
Definition dates_offered (sel : Selection) (b : option (Z * Z)) : Prop :=
  match b with
  | Some (lo, hi) =>
      day_of lo ≤ from_date sel ≤ day_of hi ∧
      day_of lo ≤ to_date sel ≤ day_of hi
  | None => False
  end.

(** No categorical selection, and the day between the two orders of
    [gap_data] as both ends of the date range. *)
Definition select_gap_day : Selection :=
  {| selected_regions := []; selected_states := [];
     selected_categories := []; selected_subcategories := [];
     from_date := 19359; to_date := 19359 |}.

Definition no_data_warning : Element :=
  Warning "No data available for the selected filters and date range.".

(** * Properties *)

(** ** Sorting and option lists *)

Section Insertion.
Context {A : Type} (le : A → A → bool).
Hypothesis le_total : ∀ x y, le x y = true ∨ le y x = true.
Hypothesis le_trans : ∀ x y z, le x y = true → le y z = true → le x z = true.

Let R (x y : A) : Prop := le x y = true.

Lemma insert_sorted_perm x l : insert_sorted le x l ≡ₚ x :: l.
Proof using Type.
  induction l as [|y l IH]; simpl; [done|].
  destruct (le y x); [|done].
  rewrite IH. apply Permutation_swap.
Qed.

Lemma insert_sorted_sorted x l :
  StronglySorted R l → StronglySorted R (insert_sorted le x l).
Proof using le_total le_trans.
  induction 1 as [|y l Hs IH Hall]; simpl.
  - repeat constructor.
  - destruct (le y x) eqn:E.
    + constructor; [done|].
      rewrite insert_sorted_perm. by constructor.
    + assert (R x y) by (destruct (le_total x y); [done|congruence]).
      constructor; [by constructor|].
      constructor; [done|].
      eapply Forall_impl; [exact Hall|]. intros z Hz. by eapply le_trans.
Qed.

Lemma foldl_insert_perm (ins : A → list A → list A) acc l :
  (∀ x l', ins x l' ≡ₚ x :: l') →
  foldl (λ acc x, ins x acc) acc l ≡ₚ l ++ acc.
Proof using Type.
  intros Hins. revert acc.
  induction l as [|x l IH]; intros acc; simpl; [done|].
  rewrite IH, Hins. by rewrite Permutation_middle.
Qed.

Lemma foldl_insert_sorted (ins : A → list A → list A) acc l :
  (∀ x l', StronglySorted R l' → StronglySorted R (ins x l')) →
  StronglySorted R acc →
  StronglySorted R (foldl (λ acc x, ins x acc) acc l).
Proof using Type.
  intros Hins. revert acc.
  induction l as [|x l IH]; intros acc Hacc; simpl; [done|].
  apply IH. by apply Hins.
Qed.

Lemma sort_by_perm l : sort_by le l ≡ₚ l.
Proof using Type.
  unfold sort_by. rewrite (foldl_insert_perm (insert_sorted le)).
  - by rewrite app_nil_r.
  - apply insert_sorted_perm.
Qed.

Lemma sort_by_sorted l : StronglySorted R (sort_by le l).
Proof using le_total le_trans.
  apply (foldl_insert_sorted (insert_sorted le)).
  - apply insert_sorted_sorted.
  - constructor.
Qed.

End Insertion.

Lemma sort_stable_contract : sort_contract sort_stable.
Proof.
  intros A le l Htot Htrans. split.
  - apply sort_by_perm.
  - by apply sort_by_sorted.
Qed.

Lemma unique_from_elem seen l x :
  x ∈ unique_from seen l ↔ x ∈ l ∧ x ∉ seen.
Proof.
  revert seen. induction l as [|y l IH]; intros seen; simpl.
  - set_solver.
  - case_bool_decide as Hy.
    + rewrite IH. set_solver.
    + rewrite elem_of_cons, IH. rewrite !elem_of_cons.
      destruct (decide (x = y)) as [->|]; naive_solver.
Qed.

Lemma unique_from_NoDup seen l : NoDup (unique_from seen l).
Proof.
  revert seen. induction l as [|y l IH]; intros seen; simpl.
  - constructor.
  - case_bool_decide; [done|].
    constructor; [|done].
    rewrite unique_from_elem. set_solver.
Qed.

Lemma dropna_elem {A} (c : list (option A)) x : x ∈ dropna c ↔ Some x ∈ c.
Proof.
  unfold dropna. rewrite list_elem_of_omap. split.
  - intros (o & Ho & Heq). simpl in Heq. by subst.
  - intros H. by exists (Some x).
Qed.

(** An option list holds exactly the values present in the column, once
    each. *)
Lemma options_elem col rs s :
  s ∈ options col rs ↔ ∃ r, r ∈ rs ∧ col r = Some s.
Proof.
  unfold options, sorted. rewrite sort_by_perm.
  unfold unique. rewrite unique_from_elem, dropna_elem, list_elem_of_fmap.
  split.
  - intros [(r & Hr & Hin) _]. eauto.
  - intros (r & Hin & Hr). split; [eauto|set_solver].
Qed.

Lemma options_NoDup col rs : NoDup (options col rs).
Proof.
  unfold options, sorted. rewrite sort_by_perm. apply unique_from_NoDup.
Qed.

(** ** The filters as predicates on rows *)

Lemma boolean_index_filter (P : Row → Prop) `{!∀ r, Decision (P r)} rs :
  boolean_index rs ((λ r, bool_decide (P r)) <$> rs) = filter P rs.
Proof.
  induction rs as [|r rs IH]; [done|].
  rewrite fmap_cons, filter_cons. cbn [boolean_index]. rewrite IH.
  destruct (decide (P r)).
  - by rewrite bool_decide_true.
  - by rewrite bool_decide_false.
Qed.

Lemma isin_mask (col : Row → option string) selected (rs : list Row) :
  isin selected (col <$> rs)
  = (λ r, bool_decide (col r ∈ Some <$> selected)) <$> rs.
Proof.
  unfold isin. rewrite <- list_fmap_compose. apply list_fmap_ext.
  intros _ r _. simpl. destruct (col r) as [s|].
  - apply bool_decide_ext. rewrite list_elem_of_fmap. split.
    + intros H. by exists s.
    + intros (s' & [= ->] & H). done.
  - symmetry. apply bool_decide_eq_false. rewrite list_elem_of_fmap.
    intros (s' & [=] & _).
Qed.

Lemma categorical_filter_nonempty (col : Row → option string) s selected
    (rs : list Row) :
  categorical_filter col (s :: selected) rs
  = filter (λ r, col r ∈ Some <$> (s :: selected)) rs.
Proof.
  unfold categorical_filter. rewrite isin_mask.
  apply (boolean_index_filter (λ r, col r ∈ Some <$> (s :: selected))).
Qed.

Lemma filter_all {A} (P : A → Prop) `{!∀ x, Decision (P x)} (l : list A) :
  (∀ x, P x) → filter P l = l.
Proof.
  intros HP. induction l as [|x l IH]; [done|].
  rewrite filter_cons, decide_True by done. by rewrite IH.
Qed.

Lemma categorical_filter_keeps col selected rs :
  categorical_filter col selected rs = filter (keeps col selected) rs.
Proof.
  destruct selected as [|s selected].
  - simpl. symmetry. apply filter_all. intros r. by left.
  - rewrite categorical_filter_nonempty. apply list_filter_iff.
    intros r. unfold keeps. naive_solver.
Qed.

Lemma date_filter_range f t rs : date_filter f t rs = filter (in_range f t) rs.
Proof.
  unfold date_filter, date_mask.
  rewrite <- (boolean_index_filter (in_range f t)).
  f_equal. apply list_fmap_ext. intros _ r _. simpl.
  rewrite <- bool_decide_and. by apply bool_decide_ext.
Qed.

Lemma filter_sublist_mono {A} (P Q : A → Prop)
    `{!∀ x, Decision (P x)} `{!∀ x, Decision (Q x)} (l1 l2 : list A) :
  (∀ x, P x → Q x) → l1 `sublist_of` l2 → filter P l1 `sublist_of` filter Q l2.
Proof.
  intros HPQ. induction 1 as [|x l1 l2 Hs IH|x l1 l2 Hs IH].
  - done.
  - rewrite !filter_cons. destruct (decide (P x)) as [HP|HP].
    + rewrite decide_True by auto. by constructor.
    + destruct (decide (Q x)); [by constructor|done].
  - rewrite (filter_cons Q). destruct (decide (Q x)); [by constructor|done].
Qed.

Lemma keeps_narrower col s' s r : narrower s' s → keeps col s' r → keeps col s r.
Proof.
  unfold narrower, keeps. intros [->|[Hne Hsub]] [->|Hin]; auto; [done|].
  right. rewrite list_elem_of_fmap in Hin |- *.
  destruct Hin as (x & Hx & Hin). exists x. split; [done|]. by apply Hsub.
Qed.

Lemma categorical_filter_mono col s' s rs' rs :
  narrower s' s → rs' `sublist_of` rs →
  categorical_filter col s' rs' `sublist_of` categorical_filter col s rs.
Proof.
  intros Hn Hs. rewrite !categorical_filter_keeps.
  apply filter_sublist_mono; [|done]. intros r. by apply keeps_narrower.
Qed.

Lemma categorical_filter_sublist col s rs :
  categorical_filter col s rs `sublist_of` rs.
Proof. rewrite categorical_filter_keeps. apply sublist_filter. Qed.

Lemma date_filter_sublist f t rs : date_filter f t rs `sublist_of` rs.
Proof. rewrite date_filter_range. apply sublist_filter. Qed.

(** ** Running the script *)

Lemma bind_ok {A B} (m : M A) (k : A → M B) w a w' :
  m w = Ok (a, w') → bind m k w = k a w'.
Proof. unfold bind. by intros ->. Qed.

Lemma read_ok r w f : heap w !! r = Some f → read r w = Ok (f, w).
Proof. unfold read. by intros ->. Qed.

Lemma modify_ok r g w f :
  heap w !! r = Some f →
  modify r g w = Ok ((), {| heap := <[r := g f]> (heap w); page := page w |}).
Proof. unfold modify. by intros ->. Qed.

Lemma with_rows_id f : with_rows f (rows f) = f.
Proof. by destruct f. Qed.

(** One sidebar filter: the widget shows the values of the frame it is
    given, and the variable ends on a frame holding the kept rows; objects
    already in the store are left alone. *)
Lemma sidebar_filter_spec label col selected r w f :
  heap w !! r = Some f →
  ∃ r' w',
    sidebar_filter label col selected r w = Ok (r', w') ∧
    heap w' !! r' = Some (with_rows f (categorical_filter col selected (rows f))) ∧
    heap w `prefix_of` heap w' ∧
    page w' = page w ++ [Multiselect label (options col (rows f))].
Proof.
  intros Hr. unfold sidebar_filter.
  rewrite (bind_ok _ _ _ _ _ (read_ok _ _ _ Hr)).
  unfold bind, render. simpl. destruct selected as [|s selected].
  - eexists _, _. split; [reflexivity|]. simpl.
    rewrite with_rows_id. done.
  - eexists _, _. split; [reflexivity|]. simpl. split_and!.
    + by rewrite list_lookup_middle.
    + by apply prefix_app_r.
    + done.
Qed.

(** The sidebar on a freshly loaded data set. *)
Lemma sidebar_spec sel data :
  ∃ refs w,
    sidebar sel {| heap := [frame_of data]; page := [] |} = Ok (refs, w) ∧
    df_original refs = 0%nat ∧
    heap w !! 0%nat = Some (frame_of data) ∧
    heap w !! df_filtered refs = Some (frame_of (subcategory_step sel data)) ∧
    heap w !! df refs = Some (frame_of (working_rows sel data)) ∧
    df refs = pred (length (heap w)) ∧ df refs ≠ 0%nat ∧
    df_filtered refs ≠ df refs ∧
    page w =
      [Multiselect "Region(s)" (all_regions sel data);
       Multiselect "State(s)" (all_states sel data);
       Multiselect "Category(ies)" (all_categories sel data);
       Multiselect "Sub-Category(ies)" (all_subcategories sel data);
       DateInputs (if empty (frame_of (subcategory_step sel data))
                   then date_bounds data
                   else date_bounds (subcategory_step sel data))]
      ++ (if bool_decide (from_date sel > to_date sel)
          then [SidebarError "From Date must be earlier than To Date."]
          else []).
Proof.
  set (w0 := {| heap := [frame_of data]; page := [] |}).
  assert (H0 : heap w0 !! 0%nat = Some (frame_of data)) by done.
  destruct (sidebar_filter_spec "Region(s)" region (selected_regions sel)
              _ _ _ H0) as (r1 & w1 & E1 & L1 & P1 & G1).
  destruct (sidebar_filter_spec "State(s)" state (selected_states sel)
              _ _ _ L1) as (r2 & w2 & E2 & L2 & P2 & G2).
  destruct (sidebar_filter_spec "Category(ies)" category
              (selected_categories sel) _ _ _ L2)
    as (r3 & w3 & E3 & L3 & P3 & G3).
  destruct (sidebar_filter_spec "Sub-Category(ies)" sub_category
              (selected_subcategories sel) _ _ _ L3)
    as (r4 & w4 & E4 & L4 & P4 & G4).
  simpl in L1, L2, L3, L4.
  assert (H4 : heap w4 !! 0%nat = Some (frame_of data)).
  { eapply prefix_lookup_Some; [|exact P4].
    eapply prefix_lookup_Some; [|exact P3].
    eapply prefix_lookup_Some; [|exact P2].
    eapply prefix_lookup_Some; [exact H0|exact P1]. }
  unfold sidebar.
  rewrite (bind_ok _ _ _ _ _ E1), (bind_ok _ _ _ _ _ E2),
    (bind_ok _ _ _ _ _ E3), (bind_ok _ _ _ _ _ E4).
  rewrite (bind_ok _ _ _ _ _ (read_ok _ _ _ L4)).
  rewrite (bind_ok _ _ _ _ _ (read_ok _ _ _ H4)).
  assert (Hlen : (0 < length (heap w4))%nat).
  { apply lookup_lt_Some in H4. lia. }
  unfold bind, render, alloc, ret. simpl.
  case_bool_decide; simpl; eexists _, _; (split; [reflexivity|]); simpl;
    rewrite ?length_app; simpl;
    replace (pred (length (heap w4) + 1)) with (length (heap w4)) by lia;
    (split_and!;
     [ done
     | by apply lookup_app_l_Some
     | by apply lookup_app_l_Some
     | by rewrite list_lookup_middle
     | done
     | lia
     | apply lookup_lt_Some in L4; lia
     | rewrite G4, G3, G2, G1; simpl; done ]).
Qed.

(** ** The filter pipeline *)

(** C3: the sidebar leaves [df] on the rows obtained by filtering on
    region, then state, then category, then sub-category, then the date
    range; a categorical filter with an empty selection returns its input,
    one with a non-empty selection keeps exactly the rows whose value is a
    member of the selection, and the date filter keeps exactly the rows
    whose order date lies in the closed interval from [from] to [to]. *)
Theorem filter_pipeline_order_and_semantics (sel : Selection) (data : list Row) :
  (∃ refs w,
     sidebar sel {| heap := [frame_of data]; page := [] |} = Ok (refs, w) ∧
     heap w !! df refs = Some (frame_of (working_rows sel data))) ∧
  working_rows sel data =
    date_filter (from_date sel) (to_date sel)
      (categorical_filter sub_category (selected_subcategories sel)
         (categorical_filter category (selected_categories sel)
            (categorical_filter state (selected_states sel)
               (categorical_filter region (selected_regions sel) data)))) ∧
  (∀ (col : Row → option string) (rs : list Row),
     categorical_filter col [] rs = rs) ∧
  (∀ (col : Row → option string) s selected (rs : list Row),
     categorical_filter col (s :: selected) rs
     = filter (λ r, col r ∈ Some <$> (s :: selected)) rs) ∧
  (∀ f t (rs : list Row), date_filter f t rs = filter (in_range f t) rs).
Proof.
  split_and!.
  - destruct (sidebar_spec sel data) as (refs & w & E & _ & _ & _ & Hd & _).
    by exists refs, w.
  - reflexivity.
  - reflexivity.
  - intros. apply categorical_filter_nonempty.
  - intros. apply date_filter_range.
Qed.

Lemma working_rows_sublist_steps sel data :
  working_rows sel data `sublist_of` subcategory_step sel data ∧
  subcategory_step sel data `sublist_of` category_step sel data ∧
  category_step sel data `sublist_of` state_step sel data ∧
  state_step sel data `sublist_of` region_step sel data ∧
  region_step sel data `sublist_of` data.
Proof.
  split_and!;
    [apply date_filter_sublist | apply categorical_filter_sublist ..].
Qed.

Lemma working_rows_mono sel' sel data :
  restricts sel' sel →
  working_rows sel' data `sublist_of` working_rows sel data.
Proof.
  intros (Hr & Hs & Hc & Hsc & Hf & Ht).
  unfold working_rows. rewrite !date_filter_range.
  apply filter_sublist_mono.
  - unfold in_range, to_datetime. lia.
  - unfold subcategory_step, category_step, state_step, region_step.
    repeat (apply categorical_filter_mono; [done|]). done.
Qed.

(** C4: the working data set is a sub-sequence of the loaded one, each
    filter step only removes rows, and a selection that adds restrictions
    yields a sub-sequence of the rows of the less restricted one, hence no
    more rows. *)
Theorem filter_output_subset_monotone (sel' sel : Selection) (data : list Row) :
  restricts sel' sel →
  working_rows sel data `sublist_of` data ∧
  (length (working_rows sel data) ≤ length (subcategory_step sel data)
   ≤ length (category_step sel data))%nat ∧
  (length (category_step sel data) ≤ length (state_step sel data)
   ≤ length (region_step sel data))%nat ∧
  (length (region_step sel data) ≤ length data)%nat ∧
  working_rows sel' data `sublist_of` working_rows sel data ∧
  (length (working_rows sel' data) ≤ length (working_rows sel data))%nat.
Proof.
  intros Hres.
  destruct (working_rows_sublist_steps sel data) as (H1 & H2 & H3 & H4 & H5).
  pose proof (working_rows_mono _ _ data Hres) as Hm.
  split_and!; try (by apply sublist_length); [|exact Hm].
  etrans; [exact H1|]. etrans; [exact H2|]. etrans; [exact H3|].
  etrans; [exact H4|]. exact H5.
Qed.

Lemma filter_output_subset_monotone_witness :
  restricts select_east select_all ∧
  (length (working_rows select_east sample_data)
   ≤ length (working_rows select_all sample_data))%nat.
Proof.
  assert (H : restricts select_east select_all).
  { unfold restricts, narrower. simpl. split_and!; auto; lia. }
  split; [exact H|].
  apply (filter_output_subset_monotone select_east select_all sample_data H).
Defined.

(** C8: the four multiselects are offered, in this order, the values
    present in the loaded data, in the rows left by the region filter, in
    those left by the state filter and in those left by the category
    filter; an option list holds exactly the values of its column in
    those rows; and an empty selection filters nothing. *)
Theorem options_follow_cascade (sel : Selection) (data : list Row) :
  (∃ refs w,
     sidebar sel {| heap := [frame_of data]; page := [] |} = Ok (refs, w) ∧
     take 4 (page w) =
       [Multiselect "Region(s)" (options region data);
        Multiselect "State(s)"
          (options state
             (categorical_filter region (selected_regions sel) data));
        Multiselect "Category(ies)"
          (options category
             (categorical_filter state (selected_states sel)
                (categorical_filter region (selected_regions sel) data)));
        Multiselect "Sub-Category(ies)"
          (options sub_category
             (categorical_filter category (selected_categories sel)
                (categorical_filter state (selected_states sel)
                   (categorical_filter region (selected_regions sel) data))))]) ∧
  (∀ (col : Row → option string) (rs : list Row) s,
     s ∈ options col rs ↔ ∃ r, r ∈ rs ∧ col r = Some s) ∧
  (∀ (col : Row → option string) (rs : list Row),
     categorical_filter col [] rs = rs).
Proof.
  split_and!.
  - destruct (sidebar_spec sel data)
      as (refs & w & E & _ & _ & _ & _ & _ & _ & _ & Hp).
    exists refs, w. split; [done|]. by rewrite Hp.
  - intros. apply options_elem.
  - reflexivity.
Qed.

(** ** One run of the script *)

Lemma bind_alloc {B} f (k : nat → M B) w :
  bind (alloc f) k w
  = k (length (heap w)) {| heap := heap w ++ [f]; page := page w |}.
Proof. reflexivity. Qed.

Lemma bind_render {B} e (k : unit → M B) w :
  bind (render e) k w = k () {| heap := heap w; page := page w ++ [e] |}.
Proof. reflexivity. Qed.

Lemma bind_lift_ok {A B} (a : A) (k : A → M B) w :
  bind (lift (Ok a)) k w = k a w.
Proof. reflexivity. Qed.

Lemma insert_last {A} (l : list A) x y : <[length l := y]> (l ++ [x]) = l ++ [y].
Proof.
  replace (length l) with (length l + 0)%nat by lia.
  by rewrite insert_app_r.
Qed.

Lemma profit_margin_ok r : profit_margin r = Ok (margin_of r).
Proof.
  unfold profit_margin, margin_of, checked_div.
  destruct (decide (sales r = 0%Qc)) as [E|E].
  - by rewrite decide_False by auto.
  - by rewrite decide_True by done.
Qed.

Lemma result_map_profit_margin rs :
  result_map profit_margin rs = Ok (margin_of <$> rs).
Proof.
  induction rs as [|r rs IH]; simpl; [done|].
  by rewrite profit_margin_ok, IH.
Qed.

(** The chart section never raises; it adds the sorted, re-indexed copy
    [df_sorted] to the store and assigns the column "Profit Margin" to the
    object behind [df]. *)
Lemma charts_run sort_values inp refs w d :
  heap w !! df refs = Some d →
  charts sort_values inp refs w =
    Ok ((),
        {| heap :=
             <[df refs := assign "Profit Margin" (margin_of <$> rows d) d]>
               (heap w ++
                [set_index "Order Date"
                   (with_rows d
                      (sort_values _
                         (λ a b, bool_decide (order_date a ≤ order_date b))
                         (rows d)))]);
           page := page w ++ chart_elements sort_values inp d |}).
Proof.
  intros Hd. unfold charts.
  assert (Hlt : (df refs < length (heap w))%nat) by by eapply lookup_lt_Some.
  rewrite (bind_ok _ _ _ _ _ (read_ok _ _ _ Hd)).
  rewrite bind_alloc.
  erewrite (bind_ok (modify _ _)); cycle 1.
  { apply modify_ok. cbn [heap]. apply list_lookup_middle. done. }
  cbn [heap page]. rewrite insert_last.
  erewrite (bind_ok (read _)); cycle 1.
  { apply read_ok. cbn [heap]. apply list_lookup_middle. done. }
  erewrite (bind_ok (read _)); cycle 1.
  { apply read_ok. cbn [heap]. by apply lookup_app_l_Some. }
  rewrite !bind_render.
  erewrite (bind_ok (read _)); cycle 1.
  { apply read_ok. cbn [heap]. by apply lookup_app_l_Some. }
  rewrite !bind_render.
  erewrite (bind_ok (read _)); cycle 1.
  { apply read_ok. cbn [heap]. apply list_lookup_middle. done. }
  erewrite (bind_ok (read _)); cycle 1.
  { apply read_ok. cbn [heap]. by apply lookup_app_l_Some. }
  rewrite result_map_profit_margin, bind_lift_ok.
  erewrite (bind_ok (modify _ _)); cycle 1.
  { apply modify_ok. cbn [heap]. by apply lookup_app_l_Some. }
  cbn [heap page].
  erewrite (bind_ok (read _)); cycle 1.
  { apply read_ok. cbn [heap]. apply list_lookup_insert_eq.
    rewrite length_app. lia. }
  rewrite !bind_render. unfold render. cbn [heap page].
  unfold chart_elements. cbn [rows with_rows set_index].
  by rewrite <- !app_assoc.
Qed.

(** The KPI block never raises, and its margin rate is 0 on zero sales. *)
Lemma compute_kpis_total df :
  ∃ k, compute_kpis df = Ok k ∧
       total_sales k = series_sum (sales <$> rows df) ∧
       total_quantity k = Zsum (quantity <$> rows df) ∧
       total_profit k = series_sum (profit <$> rows df) ∧
       margin_rate k =
         (if decide (total_sales k = 0%Qc) then 0%Qc
          else (total_profit k / total_sales k)%Qc).
Proof.
  unfold compute_kpis. destruct (empty df) eqn:Ee.
  - assert (rows df = []) as ->.
    { unfold empty in Ee. by destruct (rows df). }
    eexists. split; [reflexivity|].
    cbn [total_sales total_quantity total_profit margin_rate].
    split_and!; try done; by rewrite decide_True.
  - unfold checked_div.
    destruct (decide (series_sum (sales <$> rows df) = 0%Qc)) as [E|E].
    + eexists. split; [reflexivity|].
      cbn [total_sales total_quantity total_profit margin_rate].
      split_and!; try done; by rewrite decide_True.
    + eexists. split; [reflexivity|].
      cbn [total_sales total_quantity total_profit margin_rate].
      split_and!; try done; by rewrite decide_False.
Qed.

Lemma compute_kpis_empty cols idx :
  compute_kpis {| rows := []; extra_columns := cols; index_name := idx |}
  = Ok zero_kpis.
Proof. reflexivity. Qed.

(** A whole run: it never raises; object 0 (the loaded data) and the
    object behind [df_filtered] end as they began; the object behind [df]
    holds the working rows, with the column "Profit Margin" assigned when
    the chart section ran. *)
Lemma run_spec sort_values data inp :
  let sel := selection inp in
  let working := frame_of (working_rows sel data) in
  ∃ refs w k,
    run sort_values data inp = Ok (refs, w) ∧
    compute_kpis working = Ok k ∧
    df_original refs = 0%nat ∧
    heap w !! 0%nat = Some (frame_of data) ∧
    heap w !! df_filtered refs = Some (frame_of (subcategory_step sel data)) ∧
    heap w !! df refs =
      Some (if empty working then working
            else assign "Profit Margin"
                   (margin_of <$> working_rows sel data) working) ∧
    page w =
      sidebar_elements sel data
      ++ [KpiTiles k (margin_color (margin_rate k));
          Gauge (margin_rate k * Qc_of_Z 100)%Qc (margin_color (margin_rate k))]
      ++ (if empty working
          then [Warning "No data available for the selected filters and date range."]
          else chart_elements sort_values inp working).
Proof.
  intros sel working.
  destruct (sidebar_spec sel data)
    as (refs & w1 & E & H0 & L0 & Lf & Ld & Hlast & Hne & Hfd & Hp).
  destruct (compute_kpis_total working) as (k & Ek & _).
  unfold run, app. fold sel.
  rewrite (bind_ok _ _ _ _ _ E).
  rewrite (bind_ok _ _ _ _ _ (read_ok _ _ _ Ld)).
  fold working. rewrite Ek, bind_lift_ok, !bind_render.
  destruct (empty working) eqn:Eemp.
  - rewrite bind_render. unfold ret. eexists refs, _, k.
    split; [reflexivity|]. cbn [heap page].
    split_and!; try done. rewrite Hp. unfold sidebar_elements.
    by rewrite <- !app_assoc.
  - erewrite (bind_ok (charts _ _ _)); cycle 1.
    { apply charts_run. cbn [heap]. exact Ld. }
    unfold ret. eexists refs, _, k. split; [reflexivity|]. cbn [heap page].
    assert ((df refs < length (heap w1))%nat) by by eapply lookup_lt_Some.
    split_and!; try done.
    + rewrite list_lookup_insert_ne by done. by apply lookup_app_l_Some.
    + rewrite list_lookup_insert_ne by done. by apply lookup_app_l_Some.
    + rewrite list_lookup_insert_eq; [done|]. rewrite length_app. lia.
    + rewrite Hp. unfold sidebar_elements. by rewrite <- !app_assoc.
Qed.

(** ** KPIs *)

(** C2: on a data set without rows the KPI block returns 0 for total
    sales, total quantity, total profit, margin rate and average discount,
    and does not raise. *)
Theorem kpis_on_empty_dataset (cols : list string) (idx : option string) :
  compute_kpis {| rows := []; extra_columns := cols; index_name := idx |}
  = Ok {| total_sales := 0%Qc; total_quantity := 0; total_profit := 0%Qc;
          margin_rate := 0%Qc; avg_discount := Some 0%Qc |}.
Proof. apply compute_kpis_empty. Qed.

Lemma eq_by_compute {A} `{EqDecision A} (x y : A) :
  bool_decide (x = y) = true → x = y.
Proof. apply bool_decide_eq_true_1. Qed.

(** The scenario of three orders with sales 100, 200, 300 and profit 10,
    20, -5: total sales 600, total profit 25, margin rate 25/600. *)
Example kpis_of_sample_data :
  ∃ k, compute_kpis (frame_of sample_data) = Ok k ∧
       total_sales k = Qc_of_Z 600 ∧ total_quantity k = 3 ∧
       total_profit k = Qc_of_Z 25 ∧
       margin_rate k = (Qc_of_Z 25 / Qc_of_Z 600)%Qc.
Proof.
  destruct (compute_kpis_total (frame_of sample_data))
    as (k & E & Hs & Hq & Hp & Hm).
  exists k. split; [done|].
  assert (total_sales k = Qc_of_Z 600) as Hs'.
  { rewrite Hs. apply eq_by_compute. by vm_compute. }
  assert (total_profit k = Qc_of_Z 25) as Hp'.
  { rewrite Hp. apply eq_by_compute. by vm_compute. }
  split_and!; try done.
  rewrite Hm, Hs', Hp'. by rewrite decide_False by by vm_compute.
Qed.

(** The margin rate of a bucket or group: Profit / Sales.replace(0, 1) is
    never NaN; it is profit / sales on non-zero sales and the profit
    itself on zero sales. *)
Lemma aggregate_margin_rate {K} (k : K) rs :
  agg_margin_rate (aggregate k rs) =
    Some (if decide (agg_sales (aggregate k rs) = 0%Qc)
          then agg_profit (aggregate k rs)
          else (agg_profit (aggregate k rs) / agg_sales (aggregate k rs))%Qc).
Proof.
  unfold aggregate. cbn [agg_margin_rate agg_sales agg_profit].
  unfold series_div, replace_0_1.
  destruct (decide (series_sum (sales <$> rs) = 0%Qc)) as [E|E].
  - rewrite decide_False by done. f_equal.
    by rewrite <- (Qcmult_1_l (_ / 1)), Qcmult_div_r.
  - by rewrite decide_False.
Qed.

(** C1, at a data set holding one order line with sales 0 and profit -5:
    the KPI block and the per-transaction margin give 0, while the
    product group and the resample bucket of that line give -5. *)
Theorem margin_rate_on_zero_sales :
  (∃ k, compute_kpis (frame_of [giveaway]) = Ok k ∧
        total_sales k = 0%Qc ∧ margin_rate k = 0%Qc) ∧
  profit_margin giveaway = Ok 0%Qc ∧
  agg_sales <$> product_grouped [giveaway] = [0%Qc] ∧
  agg_margin_rate <$> product_grouped [giveaway] = [Some (Qc_of_Z (-5))] ∧
  agg_sales <$> resample Daily [giveaway] = [0%Qc] ∧
  agg_margin_rate <$> resample Daily [giveaway] = [Some (Qc_of_Z (-5))].
Proof.
  split_and!.
  - destruct (compute_kpis_total (frame_of [giveaway]))
      as (k & E & Hs & _ & _ & Hm).
    exists k. split; [done|].
    assert (total_sales k = 0%Qc) as Hz.
    { rewrite Hs. apply eq_by_compute. by vm_compute. }
    split; [done|]. rewrite Hm. by rewrite decide_True.
  - rewrite profit_margin_ok. f_equal.
  - apply eq_by_compute. by vm_compute.
  - apply eq_by_compute. by vm_compute.
  - apply eq_by_compute. by vm_compute.
  - apply eq_by_compute. by vm_compute.
Qed.

(** ** A reversed date range *)

Lemma date_filter_reversed f t rs : f > t → date_filter f t rs = [].
Proof.
  intros H. rewrite date_filter_range.
  induction rs as [|r rs IH]; [done|].
  rewrite filter_cons, decide_False; [done|].
  unfold in_range, to_datetime. lia.
Qed.

(** C7: with [from] after [to] the script still runs to the end without
    raising: the error message is shown in the sidebar, the working data
    set is produced (it has no rows), the KPI tiles show zeros and the
    "no data" warning replaces the charts. *)
Theorem reversed_date_range_still_runs sort_values (data : list Row)
    (inp : Inputs) :
  from_date (selection inp) > to_date (selection inp) →
  ∃ refs w,
    run sort_values data inp = Ok (refs, w) ∧
    heap w !! df refs = Some (frame_of []) ∧
    SidebarError "From Date must be earlier than To Date." ∈ page w ∧
    KpiTiles zero_kpis (margin_color 0%Qc) ∈ page w ∧
    Warning "No data available for the selected filters and date range."
      ∈ page w.
Proof.
  intros Hrev.
  destruct (run_spec sort_values data inp)
    as (refs & w & k & E & Ek & _ & _ & _ & Hd & Hp).
  assert (Hw : working_rows (selection inp) data = []).
  { unfold working_rows. by apply date_filter_reversed. }
  rewrite Hw in Ek, Hd, Hp. cbn [empty frame_of rows] in Hd, Hp.
  unfold frame_of in Ek. rewrite compute_kpis_empty in Ek.
  injection Ek as <-.
  exists refs, w. split_and!; [done|done|..]; rewrite Hp.
  - unfold sidebar_elements. rewrite bool_decide_true by done.
    rewrite !elem_of_app. left. right. apply list_elem_of_here.
  - rewrite !elem_of_app. right. left. apply list_elem_of_here.
  - rewrite !elem_of_app. right. right. apply list_elem_of_here.
Qed.

Lemma reversed_date_range_still_runs_witness :
  from_date select_reversed > to_date select_reversed ∧
  ∃ refs w,
    run sort_stable sample_data (sample_inputs Monthly select_reversed)
    = Ok (refs, w) ∧
    heap w !! df refs = Some (frame_of []) ∧
    SidebarError "From Date must be earlier than To Date." ∈ page w ∧
    KpiTiles zero_kpis (margin_color 0%Qc) ∈ page w ∧
    Warning "No data available for the selected filters and date range."
      ∈ page w.
Proof.
  split; [simpl; lia|].
  apply (reversed_date_range_still_runs sort_stable sample_data
           (sample_inputs Monthly select_reversed)).
  simpl. lia.
Defined.

(** ** What a run changes in the store *)

Lemma base_cells_assign name (g : Row → Qc) rs :
  base_cells <$> zip_with (λ r v, set_extra name v r) rs (g <$> rs)
  = base_cells <$> rs.
Proof.
  induction rs as [|r rs IH]; [done|].
  rewrite fmap_cons. cbn [zip_with]. rewrite !fmap_cons. f_equal. apply IH.
Qed.

(** The rows after a column assignment: each row with the new cell. *)
Lemma assign_rows name (g : Row → Qc) f :
  rows (assign name (g <$> rows f) f)
  = (λ r, set_extra name (g r) r) <$> rows f.
Proof.
  unfold assign. cbn [rows]. by rewrite zip_with_fmap_r, zip_with_diag.
Qed.

(** The store at the end of a run, from the store the sidebar left: the
    same objects when the working data set has no rows; otherwise the
    sorted, re-indexed copy is added and the object behind [df] is
    replaced by the frame with the assigned column. *)
Lemma run_store sort_values data inp :
  let sel := selection inp in
  let working := frame_of (working_rows sel data) in
  ∃ refs ws w,
    sidebar sel {| heap := [frame_of data]; page := [] |} = Ok (refs, ws) ∧
    run sort_values data inp = Ok (refs, w) ∧
    heap ws !! df refs = Some working ∧
    heap w =
      (if empty working then heap ws
       else <[df refs := assign "Profit Margin"
                            (margin_of <$> working_rows sel data) working]>
              (heap ws ++
               [set_index "Order Date"
                  (frame_of (sort_values _ by_order_date
                               (working_rows sel data)))])).
Proof.
  intros sel working.
  destruct (sidebar_spec sel data)
    as (refs & w1 & E & H0 & L0 & Lf & Ld & Hlast & Hne & Hfd & Hp).
  destruct (compute_kpis_total working) as (k & Ek & _).
  exists refs, w1. unfold run, app. fold sel.
  rewrite (bind_ok _ _ _ _ _ E).
  rewrite (bind_ok _ _ _ _ _ (read_ok _ _ _ Ld)).
  fold working. rewrite Ek, bind_lift_ok, !bind_render.
  destruct (empty working) eqn:Eemp.
  - rewrite bind_render. unfold ret. eexists. split; [done|].
    split; [reflexivity|]. done.
  - erewrite (bind_ok (charts _ _ _)); cycle 1.
    { apply charts_run. cbn [heap]. exact Ld. }
    unfold ret. eexists. split; [done|]. split; [reflexivity|]. done.
Qed.

(** C9, as the script behaves, for a workbook with at least one row.
    Every frame the sidebar left in the store except the working data set
    is unchanged at the end of the run (the
    loaded data set and the frame behind [df_filtered] among them), and so
    is the sorted copy the chart section adds.  The KPI values and the
    aggregates handed to the charts are those of the working rows as the
    filters produced them and are on the page at the end; the CSV export
    and the table hold those rows and their columns.  The working data set
    itself is changed: when it has rows, the column "Profit Margin" is
    assigned to it in place, which leaves its spreadsheet cells and row
    order and adds that column, and the scatter chart and the treemap,
    built afterwards, read the changed frame. *)
Theorem run_store_effects sort_values (data : list Row) (inp : Inputs) :
  data ≠ [] →
  let sel := selection inp in
  let working := working_rows sel data in
  let g := agg_level inp in
  let kpi := selected_kpi inp in
  ∃ refs ws w f k,
    sidebar sel {| heap := [frame_of data]; page := [] |} = Ok (refs, ws) ∧
    run sort_values data inp = Ok (refs, w) ∧
    (∀ i x, i ≠ df refs → heap ws !! i = Some x → heap w !! i = Some x) ∧
    heap w !! df_original refs = Some (frame_of data) ∧
    heap w !! df_filtered refs = Some (frame_of (subcategory_step sel data)) ∧
    heap ws !! df refs = Some (frame_of working) ∧
    heap w !! df refs = Some f ∧
    base_cells <$> rows f = base_cells <$> working ∧
    index_name f = None ∧
    columns f =
      (if empty (frame_of working) then base_columns
       else base_columns ++ ["Profit Margin"%string]) ∧
    (empty (frame_of working) = true → f = frame_of working) ∧
    compute_kpis (frame_of working) = Ok k ∧
    KpiTiles k (margin_color (margin_rate k)) ∈ page w ∧
    (empty (frame_of working) = false →
     heap w !! length (heap ws)
     = Some (set_index "Order Date"
               (frame_of (sort_values _ by_order_date working))) ∧
     AreaChart kpi g (rolling_window g)
       (time_series g kpi (sort_values _ by_order_date working)) ∈ page w ∧
     BarTop10 kpi (top_10 sort_values kpi working) ∈ page w ∧
     PieRegion (grouped_sum region sales working) ∈ page w ∧
     Download base_columns working ∈ page w ∧
     Table base_columns working ∈ page w ∧
     LineSalesProfit
       ((λ a, (agg_key a, agg_sales a, agg_profit a))
          <$> resample Monthly (sort_values _ by_order_date working))
       ∈ page w ∧
     BarCategoryProfit
       (sort_values _ (λ a b : string * Qc, bool_decide (b.2 ≤ a.2)%Qc)
          (grouped_sum category profit working)) ∈ page w ∧
     rows f = (λ r, set_extra "Profit Margin" (margin_of r) r) <$> working ∧
     ScatterDiscountMargin
       ((λ r, (discount r, get_extra "Profit Margin" r, category r))
          <$> rows f) ∈ page w ∧
     Treemap (grouped_sum sub_category sales (rows f)) ∈ page w).
Proof.
  intros _ sel working g kpi.
  destruct (run_spec sort_values data inp)
    as (refs & w & k & E & Ek & H0 & L0 & Lf & Ld & Hp).
  destruct (run_store sort_values data inp)
    as (refs' & ws & w' & Es & E' & Lws & Hheap).
  rewrite E in E'. injection E' as <- <-.
  fold sel working in Ek, Lf, Ld, Hp, Lws, Hheap.
  assert (Hdf : (df refs < length (heap ws))%nat) by by eapply lookup_lt_Some.
  eexists refs, ws, w, _, k.
  split; [exact Es|]. split; [exact E|]. split.
  { intros i x Hi Hx. rewrite Hheap. destruct (empty _); [done|].
    rewrite list_lookup_insert_ne by done. by apply lookup_app_l_Some. }
  rewrite H0. split; [exact L0|]. split; [exact Lf|].
  split; [exact Lws|]. split; [exact Ld|].
  assert (Hkpi : KpiTiles k (margin_color (margin_rate k)) ∈ page w).
  { rewrite Hp, !elem_of_app. right. left. by left. }
  destruct (empty (frame_of working)) eqn:Ee.
  - split_and!; try done.
  - split_and!; try done.
    + cbn [rows assign frame_of]. apply base_cells_assign.
    + intros _. split.
      { rewrite Hheap, list_lookup_insert_ne by lia.
        by rewrite list_lookup_middle. }
      assert (Hch : ∀ e, e ∈ chart_elements sort_values inp (frame_of working)
                         → e ∈ page w).
      { intros e He. rewrite Hp, !elem_of_app. by do 2 right. }
      unfold chart_elements in Hch. cbn [rows frame_of] in Hch.
      fold by_order_date g kpi in Hch.
      split_and!; try (apply Hch; rewrite !elem_of_cons; auto 12).
      apply (assign_rows "Profit Margin" margin_of (frame_of working)).
Qed.

Lemma run_store_effects_witness :
  sample_data ≠ [] ∧
  ∃ refs w f,
    run sort_stable sample_data (sample_inputs Monthly select_all)
    = Ok (refs, w) ∧
    heap w !! df_original refs = Some (frame_of sample_data) ∧
    heap w !! df refs = Some f ∧
    columns f = base_columns ++ ["Profit Margin"%string] ∧
    Download base_columns (working_rows select_all sample_data) ∈ page w ∧
    Treemap (grouped_sum sub_category sales (rows f)) ∈ page w.
Proof.
  assert (H : sample_data ≠ []) by discriminate.
  split; [exact H|].
  destruct (run_store_effects sort_stable sample_data
              (sample_inputs Monthly select_all) H)
    as (refs & ws & w & f & k & _ & E & _ & L0 & _ & _ & Lf & _ & _ & Hc
        & _ & _ & _ & Hch).
  assert (Hne : empty (frame_of (working_rows select_all sample_data)) = false)
    by reflexivity.
  cbn [selection sample_inputs] in Hc, Hch. rewrite Hne in Hc.
  destruct (Hch Hne) as (_ & _ & _ & _ & Hd & _ & _ & _ & _ & _ & Ht).
  exists refs, w, f. split_and!; done.
Defined.

(** C9 fails as stated: on the sample data the frame behind [df] at the
    end of the run has a column that the exported data set did not have,
    and its rows differ from the exported rows. *)
Lemma working_dataset_changed_after_export :
  ∃ refs w hdr body f,
    run sort_stable sample_data (sample_inputs Monthly select_all)
    = Ok (refs, w) ∧
    Download hdr body ∈ page w ∧
    heap w !! df refs = Some f ∧
    columns f ≠ hdr ∧ rows f ≠ body.
Proof.
  destruct (run_spec sort_stable sample_data
              (sample_inputs Monthly select_all))
    as (refs & w & k & E & _ & _ & _ & _ & Ld & Hp).
  assert (Hne : empty (frame_of (working_rows select_all sample_data)) = false)
    by by vm_compute.
  cbn [selection sample_inputs] in Ld, Hp. rewrite Hne in Ld, Hp.
  eexists refs, w, _, _, _. split; [exact E|].
  split; [|split; [exact Ld|]].
  - rewrite Hp, !elem_of_app. right. right. unfold chart_elements.
    rewrite !elem_of_cons. do 3 right. left. reflexivity.
  - split.
    + intros H. apply (f_equal length) in H. by vm_compute in H.
    + intros H. vm_compute in H. discriminate H.
Qed.

(** ** The monthly sales and profit chart *)

(** C10: whatever aggregation level is selected, when the working data
    set has rows the run renders exactly one "Sales and Profit Over Time"
    chart, and its points are the monthly resample of the working rows
    sorted by order date. *)
Theorem sales_profit_chart_is_monthly sort_values (data : list Row)
    (th : Theme) (g : Granularity) (sel : Selection) (kpi : Metric) :
  working_rows sel data ≠ [] →
  ∃ refs w,
    run sort_values data
      {| theme_choice := th; agg_level := g; selection := sel;
         selected_kpi := kpi |} = Ok (refs, w) ∧
    ∀ pts,
      LineSalesProfit pts ∈ page w ↔
      pts = (λ a, (agg_key a, agg_sales a, agg_profit a))
              <$> resample Monthly
                    (sort_values _ by_order_date (working_rows sel data)).
Proof.
  intros Hne.
  destruct (run_spec sort_values data (mkInputs th g sel kpi))
    as (refs & w & k & E & _ & _ & _ & _ & _ & Hp).
  cbn [selection] in Hp.
  assert (Ee : empty (frame_of (working_rows sel data)) = false).
  { unfold empty. cbn [rows frame_of]. by destruct (working_rows sel data). }
  rewrite Ee in Hp. exists refs, w. split; [exact E|].
  intros pts. rewrite Hp, !elem_of_app.
  unfold sidebar_elements, chart_elements. cbn [rows frame_of].
  fold by_order_date. split.
  - intros [Hin|[Hin|Hin]].
    + rewrite elem_of_app in Hin. destruct Hin as [Hin|Hin].
      * rewrite !elem_of_cons, elem_of_nil in Hin. naive_solver.
      * destruct (bool_decide _);
          rewrite ?elem_of_cons, elem_of_nil in Hin; naive_solver.
    + rewrite !elem_of_cons, elem_of_nil in Hin. naive_solver.
    + rewrite !elem_of_cons, elem_of_nil in Hin. naive_solver.
  - intros ->. right. right. rewrite !elem_of_cons. auto 10.
Qed.

Lemma sales_profit_chart_is_monthly_witness :
  working_rows select_all sample_data ≠ [] ∧
  ∃ refs w,
    run sort_stable sample_data
      {| theme_choice := Light; agg_level := Daily; selection := select_all;
         selected_kpi := KProfit |} = Ok (refs, w) ∧
    ∀ pts,
      LineSalesProfit pts ∈ page w ↔
      pts = (λ a, (agg_key a, agg_sales a, agg_profit a))
              <$> resample Monthly
                    (sort_stable _ by_order_date
                       (working_rows select_all sample_data)).
Proof.
  assert (H : working_rows select_all sample_data ≠ []) by by vm_compute.
  split; [exact H|].
  apply (sales_profit_chart_is_monthly sort_stable sample_data Light Daily
           select_all KProfit H).
Defined.

(** ** The rolling average *)

Lemma dropna_length_le {A} (c : list (option A)) :
  (length (dropna c) ≤ length c)%nat.
Proof.
  unfold dropna. induction c as [|[x|] c IH]; csimpl; lia.
Qed.

(** A window either has all its entries, which are then its
    observations, or has fewer observations than entries. *)
Lemma window_observations (win : list cell) :
  match mapM id win with
  | Some vs => dropna win = vs ∧ length vs = length win
  | None => (length (dropna win) < length win)%nat
  end.
Proof.
  induction win as [|[x|] win IH]; csimpl.
  - done.
  - destruct (mapM id win) as [vs|]; csimpl.
    + destruct IH as [-> <-]. done.
    + unfold dropna in *. csimpl. apply (proj1 (Nat.succ_lt_mono _ _)), IH.
  - pose proof (dropna_length_le win) as H. unfold dropna in *. csimpl.
    apply Nat.lt_succ_r, H.
Qed.

Lemma mapM_fmap_id {A B} (f : A → option B) (l : list A) :
  mapM f l = mapM id (f <$> l).
Proof.
  induction l as [|x l IH]; csimpl; [done|].
  destruct (f x); csimpl; [|done]. f_equal. exact IH.
Qed.

Lemma window_entries (ys : list cell) (lo n : nat) :
  (lo + n ≤ length ys)%nat →
  (λ j, mjoin (ys !! j)) <$> seq lo n = take n (drop lo ys).
Proof.
  intros Hle. apply list_eq. intros k.
  rewrite list_lookup_fmap.
  destruct (decide (k < n)%nat) as [Hk|Hk].
  - destruct (lookup_lt_is_Some_2 ys (lo + k)) as [c Hc]; [lia|].
    rewrite lookup_seq_lt, lookup_take_lt, lookup_drop, Hc by done.
    simpl. by rewrite Hc.
  - rewrite lookup_seq_ge by lia. simpl.
    by rewrite lookup_take_ge by lia.
Qed.

Lemma rolling_mean_lookup (window : nat) (ys : list cell) (i : nat) :
  (i < length ys)%nat →
  rolling_mean window ys !! i =
    Some (let obs := dropna (drop (S i - window) (take (S i) ys)) in
          if bool_decide (length obs < window)%nat then None
          else series_mean obs).
Proof.
  intros Hi. unfold rolling_mean.
  by rewrite list_lookup_fmap, lookup_seq_lt.
Qed.

Lemma rolling_mean_length window ys :
  length (rolling_mean window ys) = length ys.
Proof. unfold rolling_mean. by rewrite length_fmap, length_seq. Qed.

Lemma rolling_mean_early (window : nat) (ys : list cell) (i : nat) :
  (i < length ys)%nat → (i < window - 1)%nat →
  rolling_mean window ys !! i = Some None.
Proof.
  intros Hi Hw. rewrite rolling_mean_lookup by done. cbn zeta.
  rewrite bool_decide_true; [done|].
  eapply Nat.le_lt_trans; [apply dropna_length_le|].
  rewrite length_drop, length_take. lia.
Qed.

Lemma rolling_mean_full (window : nat) (ys : list cell) (i : nat) :
  (i < length ys)%nat → (0 < window)%nat → (window - 1 ≤ i)%nat →
  rolling_mean window ys !! i
  = Some (mean_over_positions ys (i + 1 - window) i).
Proof.
  intros Hi Hpos Hw. rewrite rolling_mean_lookup by done. cbn zeta.
  unfold mean_over_positions. f_equal.
  replace (S i - (i + 1 - window))%nat with window by lia.
  replace (i + 1 - window)%nat with (S i - window)%nat by lia.
  rewrite mapM_fmap_id, window_entries by lia.
  rewrite take_drop_commute.
  replace (S i - window + window)%nat with (S i) by lia.
  set (win := drop (S i - window) (take (S i) ys)).
  assert (Hlen : length win = window).
  { unfold win. rewrite length_drop, length_take. lia. }
  pose proof (window_observations win) as Hobs.
  destruct (mapM id win) as [vs|]; simpl.
  - destruct Hobs as [-> Hvs]. rewrite bool_decide_false by lia. done.
  - rewrite bool_decide_true by lia. done.
Qed.

(** C5: the window is 30 buckets for Daily, 4 for Weekly and 3 for
    Monthly; the rolling-average column of the time-series frame is
    undefined at the positions before [window - 1], and from there on it
    is the arithmetic mean of the selected metric over the positions
    [i - window + 1] to [i]. *)
Theorem rolling_average_window (g : Granularity) (kpi : Metric)
    (rs : list Row) (i : nat) :
  let ys := metric_value kpi <$> resample g rs in
  let rolling := (time_series g kpi rs).*2 in
  (i < length ys)%nat →
  rolling_window Daily = 30%nat ∧
  rolling_window Weekly = 4%nat ∧
  rolling_window Monthly = 3%nat ∧
  ((i < rolling_window g - 1)%nat → rolling !! i = Some None) ∧
  ((rolling_window g - 1 ≤ i)%nat →
   rolling !! i
   = Some (mean_over_positions ys (i + 1 - rolling_window g) i)).
Proof.
  intros ys rolling Hi.
  assert (Hroll : rolling = rolling_mean (rolling_window g) ys).
  { unfold rolling, time_series. fold ys. apply snd_zip.
    rewrite rolling_mean_length, length_zip, !length_fmap.
    unfold ys. rewrite length_fmap. lia. }
  rewrite Hroll. split_and!; try done.
  - intros. by apply rolling_mean_early.
  - intros. apply rolling_mean_full; [done| |done]. destruct g; simpl; lia.
Qed.

Lemma rolling_average_window_witness :
  let ys := metric_value KSales <$> resample Monthly quarter_data in
  (2 < length ys)%nat ∧
  (time_series Monthly KSales quarter_data).*2 !! 2%nat
  = Some (mean_over_positions ys 0 2).
Proof.
  intros ys.
  assert (H : (2 < length ys)%nat) by (vm_compute; lia).
  split; [exact H|].
  apply (rolling_average_window Monthly KSales quarter_data 2 H).
  simpl. lia.
Defined.

(** ** The top 10 products *)

Lemma series_sum_perm (xs ys : list Qc) :
  xs ≡ₚ ys → series_sum xs = series_sum ys.
Proof.
  induction 1 as [|x xs ys _ IH|x y xs|xs ys zs _ IH1 _ IH2]; simpl.
  - done.
  - by rewrite IH.
  - by rewrite !Qcplus_assoc, (Qcplus_comm y x).
  - by rewrite IH1.
Qed.

Lemma Zsum_perm (xs ys : list Z) : xs ≡ₚ ys → Zsum xs = Zsum ys.
Proof.
  induction 1 as [|x xs ys _ IH|x y xs|xs ys zs _ IH1 _ IH2]; simpl; lia.
Qed.

Lemma series_mean_perm (xs ys : list Qc) :
  xs ≡ₚ ys → series_mean xs = series_mean ys.
Proof.
  intros H. unfold series_mean.
  rewrite (series_sum_perm _ _ H), (Permutation_length H).
  destruct xs, ys; try done.
  - by apply Permutation_nil_cons in H.
  - symmetry in H. by apply Permutation_nil_cons in H.
Qed.

Lemma aggregate_perm {K} (k : K) rs rs' :
  rs ≡ₚ rs' → aggregate k rs = aggregate k rs'.
Proof.
  intros H. unfold aggregate.
  rewrite (series_sum_perm (sales <$> rs) (sales <$> rs')) by by rewrite H.
  rewrite (series_sum_perm (profit <$> rs) (profit <$> rs')) by by rewrite H.
  rewrite (Zsum_perm (quantity <$> rs) (quantity <$> rs')) by by rewrite H.
  rewrite (series_mean_perm (discount <$> rs) (discount <$> rs'))
    by by rewrite H.
  done.
Qed.

Lemma cell_ge_total (a b : cell) : cell_ge a b = true ∨ cell_ge b a = true.
Proof.
  destruct a as [x|], b as [y|]; simpl; auto.
  destruct (total Qcle x y); [right|left]; by apply bool_decide_eq_true.
Qed.

Lemma cell_ge_trans (a b c : cell) :
  cell_ge a b = true → cell_ge b c = true → cell_ge a c = true.
Proof.
  destruct a as [x|], b as [y|], c as [z|]; simpl; try done.
  rewrite !bool_decide_eq_true. intros. by eapply Qcle_trans.
Qed.


Lemma groupby_keys col rs : (groupby col rs).*1 = options col rs.
Proof.
  unfold groupby. rewrite <- list_fmap_compose.
  rewrite <- (list_fmap_id (options col rs)) at 2.
  by apply list_fmap_ext.
Qed.



Lemma string_leb_trans (a b c : string) :
  String.leb a b = true → String.leb b c = true → String.leb a c = true.
Proof.
  unfold String.leb. intros Hab Hbc.
  destruct (String.compare a b) eqn:Eab; [|clear Hab|done].
  - apply OrderedTypeEx.String_as_OT.cmp_eq in Eab. by subst.
  - destruct (String.compare b c) eqn:Ebc; [| |done].
    + apply OrderedTypeEx.String_as_OT.cmp_eq in Ebc. subst. by rewrite Eab.
    + apply OrderedTypeEx.String_as_OT.cmp_lt in Eab, Ebc.
      pose proof (OrderedTypeEx.String_as_OT.lt_trans _ _ _ Eab Ebc) as Hac.
      apply OrderedTypeEx.String_as_OT.cmp_lt in Hac.
      unfold OrderedTypeEx.String_as_OT.cmp in Hac. by rewrite Hac.
Qed.

Lemma options_strongly_sorted (col : Row → option string) (rs : list Row) :
  StronglySorted (λ a b, String.leb a b = true) (options col rs).
Proof.
  unfold options, sorted. apply sort_by_sorted.
  - apply String.leb_total.
  - apply string_leb_trans.
Qed.







(** * Further properties of the script *)

(** ** The filters together *)

Lemma filter_ext_in {A} (P Q : A → Prop)
    `{!∀ x, Decision (P x)} `{!∀ x, Decision (Q x)} (l : list A) :
  (∀ x, x ∈ l → P x ↔ Q x) → filter P l = filter Q l.
Proof.
  induction l as [|x l IH]; intros Hext; [done|].
  rewrite !filter_cons.
  rewrite IH by (intros y Hy; apply Hext; by right).
  destruct (decide (P x)) as [HP|HP].
  - rewrite decide_True; [done|]. apply Hext; [by left|done].
  - rewrite decide_False; [done|]. intros HQ. apply HP, Hext; [by left|done].
Qed.

Lemma filter_all_in {A} (P : A → Prop) `{!∀ x, Decision (P x)} (l : list A) :
  (∀ x, x ∈ l → P x) → filter P l = l.
Proof.
  induction l as [|x l IH]; intros Hall; [done|].
  rewrite filter_cons, decide_True by (apply Hall; by left).
  rewrite IH; [done|]. intros y Hy. apply Hall. by right.
Qed.

Lemma list_filter_nil_in {A} (P : A → Prop) `{!∀ x, Decision (P x)}
    (l : list A) :
  (∀ x, x ∈ l → ¬ P x) → filter P l = [].
Proof.
  induction l as [|x l IH]; intros Hall; [done|].
  rewrite filter_cons, decide_False by (apply Hall; by left).
  apply IH. intros y Hy. apply Hall. by right.
Qed.

Lemma working_rows_filter (sel : Selection) (data : list Row) :
  working_rows sel data = filter (passes sel) data.
Proof.
  unfold working_rows, subcategory_step, category_step, state_step,
    region_step.
  rewrite date_filter_range, !categorical_filter_keeps, !list_filter_filter.
  apply list_filter_iff. intros r. unfold passes. tauto.
Qed.

(** The five filters amount to one: a row of the loaded data is in the
    working data set exactly when it passes every active filter, so the
    order in which the sidebar applies them does not affect the rows. *)
Theorem working_rows_conjunctive (sel : Selection) (data : list Row) :
  working_rows sel data = filter (passes sel) data ∧
  ∀ r, r ∈ working_rows sel data ↔ r ∈ data ∧ passes sel r.
Proof.
  pose proof (working_rows_filter sel data) as H.
  split; [exact H|].
  intros r. rewrite H, list_elem_of_filter. tauto.
Qed.

(** A multiselect left at its default, all the options of its column:
    when the column holds no value at all the option list is empty and
    every row is kept; otherwise the rows with a missing value in that
    column are dropped and all others kept. *)
Theorem categorical_filter_all_options (col : Row → option string)
    (rs : list Row) :
  categorical_filter col (options col rs) rs =
    if decide (options col rs = []) then rs
    else filter (λ r, is_Some (col r)) rs.
Proof.
  destruct (decide (options col rs = [])) as [E|E].
  - by rewrite E.
  - rewrite categorical_filter_keeps. apply filter_ext_in.
    intros r Hr. unfold keeps. split.
    + intros [H|H]; [done|].
      apply list_elem_of_fmap in H as (s & -> & _). by eexists.
    + intros [s Hs]. right. rewrite Hs. apply list_elem_of_fmap_2.
      apply options_elem. eauto.
Qed.

(** An option list is in ascending order and names no value twice. *)
Theorem options_sorted_distinct (col : Row → option string) (rs : list Row) :
  StronglySorted (λ a b, String.leb a b = true) (options col rs) ∧
  NoDup (options col rs).
Proof.
  split; [apply options_strongly_sorted|apply options_NoDup].
Qed.

(** ** Objects made by the sidebar *)

Lemma sidebar_filter_ref label col selected r w f :
  heap w !! r = Some f →
  ∃ r' w',
    sidebar_filter label col selected r w = Ok (r', w') ∧
    r' = (if decide (selected = []) then r else length (heap w)) ∧
    length (heap w')
    = (length (heap w) + if decide (selected = []) then 0 else 1)%nat ∧
    heap w' !! r' = Some (with_rows f (categorical_filter col selected (rows f))).
Proof.
  intros Hr. unfold sidebar_filter.
  rewrite (bind_ok _ _ _ _ _ (read_ok _ _ _ Hr)).
  unfold bind, render. simpl. destruct selected as [|s selected].
  - eexists _, _. split; [reflexivity|]. simpl.
    rewrite with_rows_id. split_and!; [done|lia|done].
  - eexists _, _. split; [reflexivity|]. simpl.
    rewrite length_app. simpl. split_and!; [done|lia|].
    by rewrite list_lookup_middle.
Qed.

(** The sidebar makes a new frame only for a filter with a non-empty
    selection: with all four selections empty the variable [df_filtered]
    still names the loaded data set itself, otherwise another object.
    The frame behind [df] is always a new object, so the store ends with
    the loaded data, one frame per active filter, and [df]. *)
Theorem sidebar_objects (sel : Selection) (data : list Row) :
  ∃ refs w,
    sidebar sel {| heap := [frame_of data]; page := [] |} = Ok (refs, w) ∧
    (df_filtered refs = df_original refs ↔ active_filters sel = 0%nat) ∧
    df refs ≠ df_original refs ∧
    df refs ≠ df_filtered refs ∧
    length (heap w) = (2 + active_filters sel)%nat.
Proof.
  set (w0 := {| heap := [frame_of data]; page := [] |}).
  assert (H0 : heap w0 !! 0%nat = Some (frame_of data)) by done.
  destruct (sidebar_filter_ref "Region(s)" region (selected_regions sel)
              _ _ _ H0) as (r1 & w1 & E1 & R1 & N1 & L1).
  destruct (sidebar_filter_ref "State(s)" state (selected_states sel)
              _ _ _ L1) as (r2 & w2 & E2 & R2 & N2 & L2).
  destruct (sidebar_filter_ref "Category(ies)" category
              (selected_categories sel) _ _ _ L2)
    as (r3 & w3 & E3 & R3 & N3 & L3).
  destruct (sidebar_filter_ref "Sub-Category(ies)" sub_category
              (selected_subcategories sel) _ _ _ L3)
    as (r4 & w4 & E4 & R4 & N4 & L4).
  destruct (sidebar_spec sel data)
    as (refs & w & E & Ho & _ & _ & _ & Hd & _ & _ & _).
  exists refs, w. split; [exact E|].
  revert E. unfold sidebar. fold w0.
  rewrite (bind_ok _ _ _ _ _ E1), (bind_ok _ _ _ _ _ E2),
    (bind_ok _ _ _ _ _ E3), (bind_ok _ _ _ _ _ E4).
  rewrite (bind_ok _ _ _ _ _ (read_ok _ _ _ L4)).
  assert (H4 : ∃ o, heap w4 !! 0%nat = Some o).
  { apply lookup_lt_is_Some_2. apply lookup_lt_Some in L4. lia. }
  destruct H4 as [o H4].
  rewrite (bind_ok _ _ _ _ _ (read_ok _ _ _ H4)).
  unfold bind, render, alloc, ret. simpl.
  assert (Hr4 : (r4 < length (heap w4))%nat) by by eapply lookup_lt_Some.
  unfold active_filters. rewrite !filter_cons, filter_nil. simpl in N1.
  destruct (bool_decide (from_date sel > to_date sel)); simpl;
    intros [= <- <-]; simpl; rewrite length_app; simpl;
    repeat case_decide; try done; simpl in *; subst;
    split_and!; lia.
Qed.

(** ** A whole run *)

(** A multiselect returns some of the options of its column, so on a
    frame with rows its filter leaves rows: either nothing is selected and
    the frame passes through, or a selected value occurs in the column. *)
Lemma categorical_filter_offered col (selected : list string) (rs : list Row) :
  rs ≠ [] → selected ⊆ options col rs →
  categorical_filter col selected rs ≠ [].
Proof.
  intros Hne Hsub. destruct selected as [|s selected]; [done|].
  assert (Hs : s ∈ options col rs) by (apply Hsub; by left).
  apply options_elem in Hs as (r & Hr & Hc).
  rewrite categorical_filter_keeps. intros Hnil.
  assert (Hin : r ∈ filter (keeps col (s :: selected)) rs).
  { apply list_elem_of_filter. split; [|done]. right. rewrite Hc.
    apply list_elem_of_fmap_2. by left. }
  rewrite Hnil in Hin. by apply elem_of_nil in Hin.
Qed.

Lemma subcategory_step_offered (sel : Selection) (data : list Row) :
  data ≠ [] → offered sel data → subcategory_step sel data ≠ [].
Proof.
  intros Hne (H1 & H2 & H3 & H4).
  unfold all_regions, all_states, all_categories, all_subcategories in *.
  assert (N1 : region_step sel data ≠ [])
    by by apply categorical_filter_offered.
  assert (N2 : state_step sel data ≠ [])
    by by apply categorical_filter_offered.
  assert (N3 : category_step sel data ≠ [])
    by by apply categorical_filter_offered.
  by apply categorical_filter_offered.
Qed.

Lemma date_bounds_is_Some (rs : list Row) :
  rs ≠ [] → ∃ lo hi, date_bounds rs = Some (lo, hi).
Proof. destruct rs; [done|]. intros _. by eexists _, _. Qed.

(** With at least one loaded row and selections the multiselects can
    return, the script runs to its end, whatever the date range, the other
    widget values and the sort: no division by zero and no object read
    before it is bound.  The page then holds, in this order: the four
    multiselects with their option lists; the date inputs with the
    earliest and the latest order date of the filtered frame; the error
    message when the date range is reversed; the KPI tiles and the gauge
    for the KPIs of the working rows; and either the "no data" warning
    alone or the nine chart-section elements. *)
Theorem run_never_raises sort_values (data : list Row) (inp : Inputs) :
  data ≠ [] →
  offered (selection inp) data →
  let sel := selection inp in
  let working := frame_of (working_rows sel data) in
  ∃ refs w k lo hi,
    run sort_values data inp = Ok (refs, w) ∧
    compute_kpis working = Ok k ∧
    date_bounds (subcategory_step sel data) = Some (lo, hi) ∧
    page w =
      [Multiselect "Region(s)" (all_regions sel data);
       Multiselect "State(s)" (all_states sel data);
       Multiselect "Category(ies)" (all_categories sel data);
       Multiselect "Sub-Category(ies)" (all_subcategories sel data);
       DateInputs (Some (lo, hi))]
      ++ (if bool_decide (from_date sel > to_date sel)
          then [SidebarError "From Date must be earlier than To Date."]
          else [])
      ++ [KpiTiles k (margin_color (margin_rate k));
          Gauge (margin_rate k * Qc_of_Z 100)%Qc (margin_color (margin_rate k))]
      ++ (if empty working then [no_data_warning]
          else chart_elements sort_values inp working) ∧
    length (page w) =
      (7 + (if bool_decide (from_date sel > to_date sel)%Z then 1 else 0)
         + (if empty working then 1 else 9))%nat.
Proof.
  intros Hne Hoff sel working.
  destruct (run_spec sort_values data inp)
    as (refs & w & k & E & Ek & _ & _ & _ & _ & Hp).
  pose proof (subcategory_step_offered _ _ Hne Hoff) as Hsub.
  destruct (date_bounds_is_Some _ Hsub) as (lo & hi & Hb).
  fold sel in Hp, Hsub, Hb. fold working in Ek, Hp.
  assert (Hpage : page w =
      [Multiselect "Region(s)" (all_regions sel data);
       Multiselect "State(s)" (all_states sel data);
       Multiselect "Category(ies)" (all_categories sel data);
       Multiselect "Sub-Category(ies)" (all_subcategories sel data);
       DateInputs (Some (lo, hi))]
      ++ (if bool_decide (from_date sel > to_date sel)
          then [SidebarError "From Date must be earlier than To Date."]
          else [])
      ++ [KpiTiles k (margin_color (margin_rate k));
          Gauge (margin_rate k * Qc_of_Z 100)%Qc (margin_color (margin_rate k))]
      ++ (if empty working then [no_data_warning]
          else chart_elements sort_values inp working)).
  { rewrite Hp. unfold sidebar_elements, no_data_warning.
    assert (empty (frame_of (subcategory_step sel data)) = false) as ->.
    { unfold empty. cbn [rows frame_of].
      by destruct (subcategory_step sel data). }
    rewrite Hb. by rewrite <- app_assoc. }
  exists refs, w, k, lo, hi. split_and!; [exact E|exact Ek|exact Hb|exact Hpage|].
  rewrite Hpage. unfold chart_elements. rewrite !length_app.
  destruct (bool_decide _), (empty _); simpl; lia.
Qed.

Lemma run_never_raises_witness :
  sample_data ≠ [] ∧
  offered select_east sample_data ∧
  ∃ refs w k lo hi,
    run sort_stable sample_data (sample_inputs Daily select_east)
    = Ok (refs, w) ∧
    compute_kpis (frame_of (working_rows select_east sample_data)) = Ok k ∧
    date_bounds (subcategory_step select_east sample_data) = Some (lo, hi) ∧
    page w =
      [Multiselect "Region(s)" (all_regions select_east sample_data);
       Multiselect "State(s)" (all_states select_east sample_data);
       Multiselect "Category(ies)" (all_categories select_east sample_data);
       Multiselect "Sub-Category(ies)"
         (all_subcategories select_east sample_data);
       DateInputs (Some (lo, hi))]
      ++ (if bool_decide (from_date select_east > to_date select_east)
          then [SidebarError "From Date must be earlier than To Date."]
          else [])
      ++ [KpiTiles k (margin_color (margin_rate k));
          Gauge (margin_rate k * Qc_of_Z 100)%Qc (margin_color (margin_rate k))]
      ++ (if empty (frame_of (working_rows select_east sample_data))
          then [no_data_warning]
          else chart_elements sort_stable (sample_inputs Daily select_east)
                 (frame_of (working_rows select_east sample_data))) ∧
    length (page w) =
      (7 + (if bool_decide (from_date select_east > to_date select_east)%Z
            then 1 else 0)
         + (if empty (frame_of (working_rows select_east sample_data))
            then 1 else 9))%nat.
Proof.
  assert (H1 : sample_data ≠ []) by discriminate.
  assert (H2 : offered select_east sample_data).
  { unfold offered. split_and!; try apply list_subseteq_nil.
    intros s Hs. apply list_elem_of_singleton in Hs as ->.
    vm_compute. left. }
  split; [exact H1|]. split; [exact H2|].
  apply (run_never_raises sort_stable sample_data
           (sample_inputs Daily select_east) H1 H2).
Defined.

Lemma margin_color_threshold (m : Qc) :
  ((m * Qc_of_Z 100 < gauge_threshold)%Qc ∧ margin_color m = red) ∨
  ((gauge_threshold ≤ m * Qc_of_Z 100)%Qc ∧ margin_color m = blue).
Proof.
  assert (H100 : (0 < Qc_of_Z 100)%Qc) by done.
  assert (H15 : (margin_target * Qc_of_Z 100)%Qc = gauge_threshold).
  { apply eq_by_compute. by vm_compute. }
  unfold margin_color. destruct (decide (m < margin_target)%Qc) as [Hlt|Hge].
  - left. split; [|done]. rewrite <- H15.
    by apply Qcmult_lt_mono_pos_r.
  - right. split; [|done]. rewrite <- H15.
    apply Qcmult_le_mono_pos_r; [done|]. by apply Qcnot_lt_le.
Qed.

(** The gauge and the colour agree: the one gauge a run renders has a red
    bar exactly when the value it shows is below the threshold line at 15,
    and a blue bar otherwise; the margin KPI tile has the same colour. *)
Theorem gauge_color_matches_threshold sort_values (data : list Row)
    (inp : Inputs) :
  ∃ refs w,
    run sort_values data inp = Ok (refs, w) ∧
    (∃ v c k, Gauge v c ∈ page w ∧ KpiTiles k c ∈ page w ∧
              v = (margin_rate k * Qc_of_Z 100)%Qc) ∧
    ∀ v c, Gauge v c ∈ page w →
      ((v < gauge_threshold)%Qc ∧ c = red) ∨
      ((gauge_threshold ≤ v)%Qc ∧ c = blue).
Proof.
  destruct (run_spec sort_values data inp)
    as (refs & w & k & E & _ & _ & _ & _ & _ & Hp).
  exists refs, w. split; [exact E|]. split.
  - eexists _, _, k. rewrite Hp, !elem_of_app, !elem_of_cons.
    split_and!; [right; left; right; left; reflexivity| |reflexivity].
    right. left. by left.
  - intros v c. rewrite Hp, !elem_of_app.
    unfold sidebar_elements, chart_elements.
    intros [Hin|[Hin|Hin]].
    + rewrite elem_of_app in Hin. destruct Hin as [Hin|Hin].
      * rewrite !elem_of_cons, elem_of_nil in Hin. naive_solver.
      * destruct (bool_decide _);
          rewrite ?elem_of_cons, elem_of_nil in Hin; naive_solver.
    + rewrite !elem_of_cons, elem_of_nil in Hin.
      destruct Hin as [[=]|[[= -> ->]|[]]]. apply margin_color_threshold.
    + destruct (empty _); rewrite !elem_of_cons, elem_of_nil in Hin;
        naive_solver.
Qed.

(** ** The date range *)

Lemma foldr_min_spec (p0 : Z) (ps : list Z) :
  let m := foldr Z.min p0 ps in
  (m = p0 ∨ m ∈ ps) ∧ m ≤ p0 ∧ ∀ x, x ∈ ps → m ≤ x.
Proof.
  induction ps as [|p ps IH]; simpl.
  - split_and!; [by left|lia|]. intros x Hx. by apply elem_of_nil in Hx.
  - destruct IH as (Hin & Hle & Hall). split_and!.
    + destruct (Z.min_spec p (foldr Z.min p0 ps)) as [[_ ->]|[_ ->]].
      * right. by left.
      * destruct Hin as [->|Hin]; [by left|]. right. by right.
    + lia.
    + intros x [->|Hx]%elem_of_cons; [lia|]. specialize (Hall x Hx). lia.
Qed.

Lemma foldr_max_spec (p0 : Z) (ps : list Z) :
  let m := foldr Z.max p0 ps in
  (m = p0 ∨ m ∈ ps) ∧ p0 ≤ m ∧ ∀ x, x ∈ ps → x ≤ m.
Proof.
  induction ps as [|p ps IH]; simpl.
  - split_and!; [by left|lia|]. intros x Hx. by apply elem_of_nil in Hx.
  - destruct IH as (Hin & Hle & Hall). split_and!.
    + destruct (Z.max_spec p (foldr Z.max p0 ps)) as [[_ ->]|[_ ->]].
      * destruct Hin as [->|Hin]; [by left|]. right. by right.
      * right. by left.
    + lia.
    + intros x [->|Hx]%elem_of_cons; [lia|]. specialize (Hall x Hx). lia.
Qed.

(** The bounds offered to the two date inputs are the earliest and the
    latest order date of the rows.  With the inputs left at these bounds
    (read as calendar days), the date filter drops only rows dated after
    midnight on the last day; when no order date has a time of day it
    keeps every row. *)
Theorem date_bounds_default_range (rs : list Row) (lo hi : Z) :
  date_bounds rs = Some (lo, hi) →
  (∀ r, r ∈ rs → lo ≤ order_date r ≤ hi) ∧
  (∃ r, r ∈ rs ∧ order_date r = lo) ∧
  (∃ r, r ∈ rs ∧ order_date r = hi) ∧
  date_filter (day_of lo) (day_of hi) rs
  = filter (λ r, order_date r ≤ to_datetime (day_of hi)) rs ∧
  ((∀ r, r ∈ rs → at_midnight r) →
   date_filter (day_of lo) (day_of hi) rs = rs).
Proof.
  destruct rs as [|r0 rs]; [done|]. unfold date_bounds. intros [= <- <-].
  set (ds := order_date <$> r0 :: rs).
  destruct (foldr_min_spec (order_date r0) ds) as (Hmin_in & _ & Hmin).
  destruct (foldr_max_spec (order_date r0) ds) as (Hmax_in & _ & Hmax).
  assert (Hds : ∀ r, r ∈ r0 :: rs → order_date r ∈ ds).
  { intros r Hr. by apply list_elem_of_fmap_2. }
  assert (H0 : order_date r0 ∈ ds) by (apply Hds; by left).
  assert (Hbounds : ∀ r, r ∈ r0 :: rs →
            foldr Z.min (order_date r0) ds ≤ order_date r
            ≤ foldr Z.max (order_date r0) ds).
  { intros r Hr. split; [apply Hmin|apply Hmax]; by apply Hds. }
  assert (Hfrom : ∀ r, r ∈ r0 :: rs →
            to_datetime (day_of (foldr Z.min (order_date r0) ds))
            ≤ order_date r).
  { intros r Hr. destruct (Hbounds r Hr) as [Hlo _].
    unfold to_datetime, day_of.
    pose proof (Z.mul_div_le (foldr Z.min (order_date r0) ds) 86400). lia. }
  split_and!.
  - exact Hbounds.
  - assert (Hin : foldr Z.min (order_date r0) ds ∈ ds) by by destruct Hmin_in as [->|].
    apply list_elem_of_fmap in Hin as (r & Hr & Hin). eauto.
  - assert (Hin : foldr Z.max (order_date r0) ds ∈ ds) by by destruct Hmax_in as [->|].
    apply list_elem_of_fmap in Hin as (r & Hr & Hin). eauto.
  - rewrite date_filter_range. apply filter_ext_in.
    intros r Hr. unfold in_range. specialize (Hfrom r Hr). tauto.
  - intros Hmid. rewrite date_filter_range. apply filter_all_in.
    intros r Hr. unfold in_range. split; [by apply Hfrom|].
    destruct (Hbounds r Hr) as [_ Hhi].
    assert (Hday : day_of (order_date r)
                   ≤ day_of (foldr Z.max (order_date r0) ds)).
    { unfold day_of. apply Z.div_le_mono; lia. }
    rewrite (Hmid r Hr). unfold to_datetime.
    apply Z.mul_le_mono_nonneg_l; [lia|exact Hday].
Qed.

Lemma date_bounds_default_range_witness :
  date_bounds sample_data = Some (to_datetime 19358, to_datetime 19360) ∧
  ∀ r, r ∈ sample_data →
       to_datetime 19358 ≤ order_date r ≤ to_datetime 19360.
Proof.
  assert (H : date_bounds sample_data
              = Some (to_datetime 19358, to_datetime 19360)) by reflexivity.
  split; [exact H|].
  apply (date_bounds_default_range sample_data _ _ H).
Defined.

(** ** The discount and margin scatter, and the treemap *)

Ltac chart_on_page H :=
  unfold sidebar_elements, chart_elements; cbv zeta; rewrite H;
  rewrite !elem_of_app;
  destruct (bool_decide (_ > _));
  rewrite !elem_of_cons, !elem_of_nil; naive_solver.

(** Reading back a column that was just assigned gives the assigned
    cell. *)
Lemma get_extra_set_extra name v r :
  get_extra name (set_extra name v r) = Some v.
Proof.
  unfold get_extra, set_extra. cbn [extra].
  rewrite list_find_app_r.
  - simpl. by rewrite decide_True.
  - apply list_find_None, Forall_forall. intros kv Hkv.
    by apply list_elem_of_filter in Hkv as [Hne _].
Qed.

Lemma run_page_with_rows sort_values data th g sel kpi :
  working_rows sel data ≠ [] →
  ∃ refs w k,
    run sort_values data (mkInputs th g sel kpi) = Ok (refs, w) ∧
    page w =
      sidebar_elements sel data
      ++ [KpiTiles k (margin_color (margin_rate k));
          Gauge (margin_rate k * Qc_of_Z 100)%Qc (margin_color (margin_rate k))]
      ++ chart_elements sort_values (mkInputs th g sel kpi)
           (frame_of (working_rows sel data)).
Proof.
  intros Hne.
  destruct (run_spec sort_values data (mkInputs th g sel kpi))
    as (refs & w & k & E & _ & _ & _ & _ & _ & Hp).
  cbn [selection] in Hp.
  assert (Ee : empty (frame_of (working_rows sel data)) = false).
  { unfold empty. cbn [rows frame_of]. by destruct (working_rows sel data). }
  rewrite Ee in Hp. by exists refs, w, k.
Qed.

(** The scatter chart has one point per row of the working data set, in
    row order: the row's discount, its margin (profit / sales, or 0 on
    zero sales) read back from the assigned column, and its category. *)
Theorem scatter_one_point_per_row sort_values (data : list Row)
    (th : Theme) (g : Granularity) (sel : Selection) (kpi : Metric) :
  working_rows sel data ≠ [] →
  ∃ refs w,
    run sort_values data (mkInputs th g sel kpi) = Ok (refs, w) ∧
    ∀ pts,
      ScatterDiscountMargin pts ∈ page w ↔
      pts = (λ r, (discount r,
                   Some (if decide (sales r = 0%Qc) then 0%Qc
                         else (profit r / sales r)%Qc),
                   category r)) <$> working_rows sel data.
Proof.
  intros Hne.
  destruct (run_page_with_rows sort_values data th g sel kpi Hne)
    as (refs & w & k & E & Hp).
  exists refs, w. split; [exact E|]. intros pts. rewrite Hp.
  assert (Hpts :
    (λ r, (discount r, get_extra "Profit Margin" r, category r))
      <$> rows (assign "Profit Margin"
                  (margin_of <$> rows (frame_of (working_rows sel data)))
                  (frame_of (working_rows sel data)))
    = (λ r, (discount r,
             Some (if decide (sales r = 0%Qc) then 0%Qc
                   else (profit r / sales r)%Qc),
             category r)) <$> working_rows sel data).
  { rewrite assign_rows, <- list_fmap_compose. cbn [rows frame_of].
    apply list_fmap_ext. intros _ r _. simpl.
    by rewrite get_extra_set_extra. }
  chart_on_page Hpts.
Qed.

Lemma scatter_one_point_per_row_witness :
  working_rows select_all sample_data ≠ [] ∧
  ∃ refs w,
    run sort_stable sample_data (mkInputs Dark Weekly select_all KSales)
    = Ok (refs, w) ∧
    ∀ pts,
      ScatterDiscountMargin pts ∈ page w ↔
      pts = (λ r, (discount r,
                   Some (if decide (sales r = 0%Qc) then 0%Qc
                         else (profit r / sales r)%Qc),
                   category r)) <$> working_rows select_all sample_data.
Proof.
  assert (H : working_rows select_all sample_data ≠ []) by by vm_compute.
  split; [exact H|].
  apply (scatter_one_point_per_row sort_stable sample_data Dark Weekly
           select_all KSales H).
Defined.

Lemma fmap_filter_respect {B} (P : Row → Prop) `{!∀ r, Decision (P r)}
    (f : Row → Row) (val : Row → B) (rs : list Row) :
  (∀ r, P (f r) ↔ P r) → (∀ r, val (f r) = val r) →
  val <$> filter P (f <$> rs) = val <$> filter P rs.
Proof.
  intros HP Hval. induction rs as [|r rs IH]; [done|].
  rewrite fmap_cons, !filter_cons.
  destruct (decide (P r)) as [Hr|Hr].
  - rewrite decide_True by by apply HP. rewrite !fmap_cons, IH, Hval. done.
  - rewrite decide_False by (by rewrite HP). done.
Qed.

(** A grouped sum reads only the grouping column and the summed column:
    rows changed elsewhere give the same groups and sums. *)
Lemma grouped_sum_respect col val (f : Row → Row) rs :
  (∀ r, col (f r) = col r) → (∀ r, val (f r) = val r) →
  grouped_sum col val (f <$> rs) = grouped_sum col val rs.
Proof.
  intros Hcol Hval. unfold grouped_sum, groupby, options.
  rewrite <- (list_fmap_compose f col).
  assert (Hc : col ∘ f <$> rs = col <$> rs).
  { apply list_fmap_ext. intros _ r _. apply Hcol. }
  rewrite Hc, <- !list_fmap_compose. apply list_fmap_ext. intros _ k _. simpl.
  f_equal. f_equal. apply fmap_filter_respect; [|done].
  intros r. by rewrite Hcol.
Qed.

(** The treemap is built after the working data set was modified in
    place, yet shows what the unmodified rows give: the sales of the
    working rows summed per sub-category. *)
Theorem treemap_unaffected_by_assignment sort_values (data : list Row)
    (th : Theme) (g : Granularity) (sel : Selection) (kpi : Metric) :
  working_rows sel data ≠ [] →
  ∃ refs w,
    run sort_values data (mkInputs th g sel kpi) = Ok (refs, w) ∧
    ∀ tiles,
      Treemap tiles ∈ page w ↔
      tiles = grouped_sum sub_category sales (working_rows sel data).
Proof.
  intros Hne.
  destruct (run_page_with_rows sort_values data th g sel kpi Hne)
    as (refs & w & k & E & Hp).
  exists refs, w. split; [exact E|]. intros tiles. rewrite Hp.
  assert (Htiles :
    grouped_sum sub_category sales
      (rows (assign "Profit Margin"
               (margin_of <$> rows (frame_of (working_rows sel data)))
               (frame_of (working_rows sel data))))
    = grouped_sum sub_category sales (working_rows sel data)).
  { rewrite assign_rows. cbn [rows frame_of].
    by apply grouped_sum_respect. }
  chart_on_page Htiles.
Qed.

Lemma treemap_unaffected_by_assignment_witness :
  working_rows select_all sample_data ≠ [] ∧
  ∃ refs w,
    run sort_stable sample_data (mkInputs Dark Weekly select_all KSales)
    = Ok (refs, w) ∧
    ∀ tiles,
      Treemap tiles ∈ page w ↔
      tiles = grouped_sum sub_category sales
                (working_rows select_all sample_data).
Proof.
  assert (H : working_rows select_all sample_data ≠ []) by by vm_compute.
  split; [exact H|].
  apply (treemap_unaffected_by_assignment sort_stable sample_data Dark Weekly
           select_all KSales H).
Defined.

(** ** Splitting rows into buckets or groups *)

Section Partition.
Context {K B : Type} (op : B → B → B) (e : B).
Context `{!Assoc (=) op, !Comm (=) op, !LeftId (=) e op}.
Context (P : K → Row → Prop) `{!∀ k r, Decision (P k r)}.
Hypothesis P_disjoint : ∀ k k' r, P k r → P k' r → k = k'.
Variable val : Row → B.

Lemma foldr_unit (ks : list K) : foldr op e ((λ _, e) <$> ks) = e.
Proof using LeftId0.
  induction ks as [|k ks IH]; [done|].
  rewrite fmap_cons. cbn [foldr]. by rewrite IH, (left_id e op).
Qed.

Lemma share_none (G : K → B) r ks :
  ¬ Exists (λ k, P k r) ks →
  (λ k, if decide (P k r) then op (val r) (G k) else G k) <$> ks = G <$> ks.
Proof using Type.
  intros Hno. apply list_fmap_ext. intros i k Hk.
  rewrite decide_False; [done|]. intros HP. apply Hno.
  apply Exists_exists. exists k. split; [|done].
  apply list_elem_of_lookup. eauto.
Qed.

(** A row that belongs to one of the keys adds its value once to the
    total over all keys. *)
Lemma share_once (G : K → B) r ks :
  NoDup ks → Exists (λ k, P k r) ks →
  foldr op e ((λ k, if decide (P k r) then op (val r) (G k) else G k) <$> ks)
  = op (val r) (foldr op e (G <$> ks)).
Proof using Assoc0 Comm0 P_disjoint.
  induction ks as [|k ks IH]; intros Hnd Hex.
  - by apply Exists_nil in Hex.
  - apply NoDup_cons in Hnd as [Hk Hnd]. rewrite !fmap_cons. cbn [foldr].
    destruct (decide (P k r)) as [HP|HP].
    + rewrite share_none; [by rewrite (assoc op)|].
      intros Hex'. apply Exists_exists in Hex' as (k' & Hk' & HP').
      by rewrite (P_disjoint _ _ _ HP HP') in Hk.
    + apply Exists_cons in Hex as [?|Hex]; [done|].
      rewrite IH by done.
      by rewrite !(assoc op), (comm op (G k)).
Qed.

Lemma partition_total ks rs :
  NoDup ks →
  foldr op e ((λ k, foldr op e (val <$> filter (P k) rs)) <$> ks)
  = foldr op e (val <$> filter (λ r, Exists (λ k, P k r) ks) rs).
Proof using Assoc0 Comm0 LeftId0 P_disjoint.
  intros Hnd. induction rs as [|r rs IH].
  - apply foldr_unit.
  - assert (Hstep :
      (λ k, foldr op e (val <$> filter (P k) (r :: rs))) <$> ks
      = (λ k, if decide (P k r)
              then op (val r) (foldr op e (val <$> filter (P k) rs))
              else foldr op e (val <$> filter (P k) rs)) <$> ks).
    { apply list_fmap_ext. intros _ k _. rewrite filter_cons.
      by destruct (decide (P k r)). }
    rewrite Hstep, filter_cons.
    destruct (decide (Exists (λ k, P k r) ks)) as [Hex|Hno].
    + rewrite share_once by done. rewrite fmap_cons. cbn [foldr].
      by rewrite IH.
    + by rewrite share_none.
Qed.

End Partition.

(** ** The resample buckets *)

Lemma period_span_spec g rs lo hi :
  period_span g rs = Some (lo, hi) →
  (∀ r, r ∈ rs → lo ≤ period_of g (order_date r) ≤ hi) ∧
  (∃ r, r ∈ rs ∧ period_of g (order_date r) = lo) ∧
  (∃ r, r ∈ rs ∧ period_of g (order_date r) = hi).
Proof.
  destruct rs as [|r0 rs]; [done|]. unfold period_span. intros [= <- <-].
  set (per := λ r : Row, period_of g (order_date r)).
  set (ps := per <$> r0 :: rs).
  destruct (foldr_min_spec (per r0) ps) as (Hmin_in & _ & Hmin).
  destruct (foldr_max_spec (per r0) ps) as (Hmax_in & _ & Hmax).
  assert (Hps : ∀ r, r ∈ r0 :: rs → per r ∈ ps).
  { intros r Hr. by apply list_elem_of_fmap_2. }
  assert (H0 : per r0 ∈ ps) by (apply Hps; by left).
  split_and!.
  - intros r Hr. split; [apply Hmin|apply Hmax]; by apply Hps.
  - assert (Hin : foldr Z.min (per r0) ps ∈ ps) by by destruct Hmin_in as [->|].
    apply list_elem_of_fmap in Hin as (r & Hr & Hin). eauto.
  - assert (Hin : foldr Z.max (per r0) ps ∈ ps) by by destruct Hmax_in as [->|].
    apply list_elem_of_fmap in Hin as (r & Hr & Hin). eauto.
Qed.

Lemma resample_unfold g rs lo hi :
  period_span g rs = Some (lo, hi) →
  resample g rs
  = (λ p, aggregate p (filter (in_period g p) rs)) <$> seqZ lo (hi - lo + 1).
Proof.
  destruct rs as [|r0 rs]; [done|]. unfold period_span. by intros [= <- <-].
Qed.

(** The time series has one bucket for every period from the first to
    the last period that holds a row, in order and without gaps: as many
    buckets as periods spanned, each aggregating the rows of its period. *)
Theorem resample_buckets_span (g : Granularity) (rs : list Row) (lo hi : Z) :
  period_span g rs = Some (lo, hi) →
  (∀ r, r ∈ rs → lo ≤ period_of g (order_date r) ≤ hi) ∧
  (∃ r, r ∈ rs ∧ period_of g (order_date r) = lo) ∧
  (∃ r, r ∈ rs ∧ period_of g (order_date r) = hi) ∧
  agg_key <$> resample g rs = seqZ lo (hi - lo + 1) ∧
  length (resample g rs) = Z.to_nat (hi - lo + 1) ∧
  (0 < length (resample g rs))%nat ∧
  ∀ b, b ∈ resample g rs →
       b = aggregate (agg_key b) (filter (in_period g (agg_key b)) rs).
Proof.
  intros Hspan.
  destruct (period_span_spec g rs lo hi Hspan) as (Hall & Hlo & Hhi).
  rewrite (resample_unfold g rs lo hi Hspan).
  assert (Hle : lo ≤ hi).
  { destruct Hlo as (r & Hr & <-). by apply Hall. }
  split_and!; try done.
  - rewrite <- list_fmap_compose.
    rewrite <- (list_fmap_id (seqZ lo (hi - lo + 1))) at 2.
    by apply list_fmap_ext.
  - by rewrite length_fmap, length_seqZ.
  - rewrite length_fmap, length_seqZ. lia.
  - intros b Hb. apply list_elem_of_fmap in Hb as (p & -> & _). done.
Qed.

Lemma resample_buckets_span_witness :
  period_span Daily sample_data = Some (19358, 19360) ∧
  length (resample Daily sample_data) = 3%nat.
Proof.
  assert (H : period_span Daily sample_data = Some (19358, 19360))
    by reflexivity.
  split; [exact H|].
  apply (resample_buckets_span Daily sample_data 19358 19360 H).
Defined.

(** A period inside the span that holds no row still has its bucket:
    sales, quantity and profit 0, a NaN mean discount (and average
    discount), and margin rate 0. *)
Theorem resample_empty_bucket (g : Granularity) (rs : list Row) (lo hi p : Z) :
  period_span g rs = Some (lo, hi) →
  lo ≤ p ≤ hi →
  (∀ r, r ∈ rs → period_of g (order_date r) ≠ p) →
  ∃ b, b ∈ resample g rs ∧ agg_key b = p ∧
       agg_sales b = 0%Qc ∧ agg_quantity b = 0 ∧ agg_profit b = 0%Qc ∧
       agg_discount b = None ∧ agg_avg_discount b = None ∧
       agg_margin_rate b = Some 0%Qc.
Proof.
  intros Hspan Hp Hnone. rewrite (resample_unfold g rs lo hi Hspan).
  exists (aggregate p (filter (in_period g p) rs)). split.
  - apply list_elem_of_fmap. exists p. split; [done|].
    apply elem_of_seqZ. lia.
  - assert (filter (in_period g p) rs = []) as ->.
    { apply list_filter_nil_in. intros r Hr. by apply Hnone. }
    split_and!; try done.
Qed.

Lemma resample_empty_bucket_witness :
  period_span Daily gap_data = Some (19358, 19360) ∧
  19358 ≤ 19359 ≤ 19360 ∧
  ∃ b, b ∈ resample Daily gap_data ∧ agg_key b = 19359 ∧
       agg_sales b = 0%Qc ∧ agg_quantity b = 0 ∧ agg_profit b = 0%Qc ∧
       agg_discount b = None ∧ agg_avg_discount b = None ∧
       agg_margin_rate b = Some 0%Qc.
Proof.
  assert (H1 : period_span Daily gap_data = Some (19358, 19360))
    by reflexivity.
  assert (H2 : 19358 ≤ 19359 ≤ 19360) by lia.
  assert (H3 : ∀ r, r ∈ gap_data → period_of Daily (order_date r) ≠ 19359).
  { apply Forall_forall. repeat constructor; by vm_compute. }
  split; [exact H1|]. split; [exact H2|].
  apply (resample_empty_bucket Daily gap_data 19358 19360 19359 H1 H2 H3).
Defined.

Lemma in_period_disjoint g (p p' : Z) (r : Row) :
  in_period g p r → in_period g p' r → p = p'.
Proof. unfold in_period. congruence. Qed.

Lemma resample_total {B} (op : B → B → B) (e : B)
    `{!Assoc (=) op, !Comm (=) op, !LeftId (=) e op}
    (val : Row → B) (col : Agg Z → B) g rs :
  (∀ p l, col (aggregate p l) = foldr op e (val <$> l)) →
  foldr op e (col <$> resample g rs) = foldr op e (val <$> rs).
Proof.
  intros Hcol. destruct (period_span g rs) as [[lo hi]|] eqn:Hspan.
  - destruct (period_span_spec g rs lo hi Hspan) as (Hall & _ & _).
    rewrite (resample_unfold g rs lo hi Hspan), <- list_fmap_compose.
    erewrite (list_fmap_ext _ (λ p, foldr op e (val <$> filter (in_period g p) rs)));
      [|intros _ p _; apply Hcol].
    rewrite (partition_total op e (in_period g) (in_period_disjoint g) val)
      by apply NoDup_seqZ.
    rewrite filter_all_in; [done|].
    intros r Hr. apply Exists_exists.
    exists (period_of g (order_date r)). split; [|done].
    apply elem_of_seqZ. specialize (Hall r Hr). lia.
  - destruct rs; [done|discriminate Hspan].
Qed.

(** Resampling loses and invents nothing: at every aggregation level the
    buckets' sales, quantities and profits add up to the totals shown in
    the KPI tiles for the same rows. *)
Theorem resample_conserves_totals (g : Granularity) (rs : list Row) :
  series_sum (agg_sales <$> resample g rs) = series_sum (sales <$> rs) ∧
  Zsum (agg_quantity <$> resample g rs) = Zsum (quantity <$> rs) ∧
  series_sum (agg_profit <$> resample g rs) = series_sum (profit <$> rs) ∧
  ∃ k, compute_kpis (frame_of rs) = Ok k ∧
       total_sales k = series_sum (agg_sales <$> resample g rs) ∧
       total_quantity k = Zsum (agg_quantity <$> resample g rs) ∧
       total_profit k = series_sum (agg_profit <$> resample g rs).
Proof.
  assert (Hs : series_sum (agg_sales <$> resample g rs)
               = series_sum (sales <$> rs)).
  { by apply (resample_total Qcplus 0%Qc sales agg_sales). }
  assert (Hq : Zsum (agg_quantity <$> resample g rs) = Zsum (quantity <$> rs)).
  { by apply (resample_total Z.add 0 quantity agg_quantity). }
  assert (Hp : series_sum (agg_profit <$> resample g rs)
               = series_sum (profit <$> rs)).
  { by apply (resample_total Qcplus 0%Qc profit agg_profit). }
  split_and!; try done.
  destruct (compute_kpis_total (frame_of rs)) as (k & E & Ks & Kq & Kp & _).
  exists k. cbn [rows frame_of] in Ks, Kq, Kp.
  split; [done|]. by rewrite Hs, Hq, Hp.
Qed.

(** ** Row order and the time series *)

Lemma period_span_perm g rs rs' :
  rs ≡ₚ rs' → period_span g rs = period_span g rs'.
Proof.
  intros H.
  destruct (period_span g rs) as [[lo hi]|] eqn:E,
           (period_span g rs') as [[lo' hi']|] eqn:E'.
  - destruct (period_span_spec g rs lo hi E) as (Ha & (r1 & Hr1 & Hl) & (r2 & Hr2 & Hh)).
    destruct (period_span_spec g rs' lo' hi' E')
      as (Ha' & (r1' & Hr1' & Hl') & (r2' & Hr2' & Hh')).
    rewrite H in Hr1, Hr2. rewrite <- H in Hr1', Hr2'.
    specialize (Ha r1' Hr1'). specialize (Ha' r1 Hr1).
    pose proof (Ha'' := period_span_spec g rs lo hi E).
    destruct Ha'' as (Ha'' & _). specialize (Ha'' r2' Hr2').
    pose proof (Hb := period_span_spec g rs' lo' hi' E').
    destruct Hb as (Hb & _). specialize (Hb r2 Hr2).
    f_equal. f_equal; lia.
  - destruct rs' as [|r' rs']; [|discriminate E'].
    apply Permutation_nil_r in H. by subst.
  - destruct rs as [|r rs]; [|discriminate E].
    symmetry in H. apply Permutation_nil_r in H. by subst.
  - done.
Qed.

Lemma resample_perm g rs rs' : rs ≡ₚ rs' → resample g rs = resample g rs'.
Proof.
  intros H. pose proof (period_span_perm g rs rs' H) as Hspan.
  destruct (period_span g rs) as [[lo hi]|] eqn:E.
  - rewrite (resample_unfold g rs lo hi E).
    rewrite (resample_unfold g rs' lo hi) by done.
    apply list_fmap_ext. intros _ p _. apply aggregate_perm. by rewrite H.
  - destruct rs, rs'; try done; discriminate.
Qed.

Lemma by_order_date_total a b :
  by_order_date a b = true ∨ by_order_date b a = true.
Proof.
  unfold by_order_date. rewrite !bool_decide_eq_true. lia.
Qed.

Lemma by_order_date_trans a b c :
  by_order_date a b = true → by_order_date b c = true →
  by_order_date a c = true.
Proof.
  unfold by_order_date. rewrite !bool_decide_eq_true. lia.
Qed.

(** In exact arithmetic the time series depends on the working rows only
    as a collection: any rearrangement of the rows gives the same buckets,
    so the area chart and its rolling average are the same whatever order
    [sort_values] leaves rows in, rows with equal order dates included. *)
Theorem time_series_ignores_row_order sort_values (g : Granularity)
    (kpi : Metric) (rs : list Row) :
  sort_contract sort_values →
  (∀ rs', rs' ≡ₚ rs → resample g rs' = resample g rs) ∧
  resample g (sort_values _ by_order_date rs) = resample g rs ∧
  time_series g kpi (sort_values _ by_order_date rs) = time_series g kpi rs.
Proof.
  intros Hsort.
  destruct (Hsort _ by_order_date rs by_order_date_total by_order_date_trans)
    as [Hperm _].
  split_and!.
  - intros rs'. apply resample_perm.
  - by apply resample_perm.
  - unfold time_series. by rewrite (resample_perm _ _ _ Hperm).
Qed.

Lemma time_series_ignores_row_order_witness :
  sort_contract sort_stable ∧
  time_series Daily KSales (sort_stable _ by_order_date sample_data)
  = time_series Daily KSales sample_data.
Proof.
  split; [exact sort_stable_contract|].
  apply (time_series_ignores_row_order sort_stable Daily KSales sample_data
           sort_stable_contract).
Defined.

(** ** Groups *)

Lemma key_disjoint (col : Row → option string) (k k' : string) (r : Row) :
  col r = Some k → col r = Some k' → k = k'.
Proof. congruence. Qed.

Lemma grouped_sum_keys (col : Row → option string) (val : Row → Qc)
    (rs : list Row) :
  (grouped_sum col val rs).*1 = options col rs.
Proof.
  unfold grouped_sum. rewrite <- groupby_keys, <- list_fmap_compose.
  apply list_fmap_ext. by intros _ [k l] _.
Qed.

Lemma grouped_sum_total (col : Row → option string) (val : Row → Qc)
    (rs : list Row) :
  series_sum (grouped_sum col val rs).*2
  = series_sum (val <$> filter (λ r, is_Some (col r)) rs).
Proof.
  unfold grouped_sum, groupby. rewrite <- !list_fmap_compose.
  unfold series_sum.
  erewrite (list_fmap_ext _
              (λ k, foldr Qcplus 0%Qc
                      (val <$> filter (λ r, col r = Some k) rs)));
    [|by intros _ k _].
  rewrite (partition_total Qcplus 0%Qc (λ k r, col r = Some k)
             (key_disjoint col) val) by apply options_NoDup.
  f_equal. f_equal. apply filter_ext_in. intros r Hr.
  rewrite Exists_exists. split.
  - intros (k & _ & Hk). by eexists.
  - intros [k Hk]. exists k. split; [|done]. apply options_elem. eauto.
Qed.

(** A grouped sum has one entry per value of the grouping column, in
    ascending order of the values, and its entries add up to the total over
    the rows that have a value in that column; so when no row lacks a
    value, the slices of "Sales by Region", the bars of "Profit by
    Category" and the tiles of the treemap each add up to the KPI total. *)
Theorem grouped_sum_conserves_total (col : Row → option string)
    (val : Row → Qc) (rs : list Row) :
  (grouped_sum col val rs).*1 = options col rs ∧
  series_sum (grouped_sum col val rs).*2
  = series_sum (val <$> filter (λ r, is_Some (col r)) rs) ∧
  ((∀ r, r ∈ rs → is_Some (col r)) →
   series_sum (grouped_sum col val rs).*2 = series_sum (val <$> rs)).
Proof.
  split_and!.
  - apply grouped_sum_keys.
  - apply grouped_sum_total.
  - intros Hall. rewrite grouped_sum_total. by rewrite filter_all_in.
Qed.

(** The ten rows kept are the largest: the grouped frame splits into the
    top list and the rest, every kept group is at least as large on the
    selected metric as every dropped one, the top list has 10 rows or as
    many as there are products, and nothing is dropped when there are at
    most 10 products. *)
Theorem top_10_are_the_largest sort_values (kpi : Metric) (rs : list Row) :
  sort_contract sort_values →
  ∃ rest,
    top_10 sort_values kpi rs ++ rest ≡ₚ product_grouped rs ∧
    (∀ a b, a ∈ top_10 sort_values kpi rs → b ∈ rest →
            metric_desc kpi a b = true) ∧
    length (top_10 sort_values kpi rs)
    = (10 `min` length (product_grouped rs))%nat ∧
    ((length (product_grouped rs) ≤ 10)%nat → rest = []).
Proof.
  intros Hsort.
  destruct (Hsort _ (metric_desc kpi) (product_grouped rs))
    as [Hperm Hsorted].
  { intros a b. apply cell_ge_total. }
  { intros a b c. apply cell_ge_trans. }
  set (arranged := sort_values _ (metric_desc kpi) (product_grouped rs)) in *.
  exists (drop 10 arranged).
  assert (Htop : top_10 sort_values kpi rs = take 10 arranged) by done.
  rewrite Htop. split_and!.
  - by rewrite take_drop.
  - intros a b Ha Hb. rewrite <- (take_drop 10 arranged) in Hsorted.
    by apply (StronglySorted_app_1_elem_of _ _ _ a b) in Hsorted.
  - by rewrite length_take, (Permutation_length Hperm).
  - intros Hle. apply drop_ge. rewrite (Permutation_length Hperm). lia.
Qed.

Lemma top_10_are_the_largest_witness :
  sort_contract sort_stable ∧
  ∃ rest,
    top_10 sort_stable KProfit sample_data ++ rest
    ≡ₚ product_grouped sample_data.
Proof.
  split; [exact sort_stable_contract|].
  destruct (top_10_are_the_largest sort_stable KProfit sample_data
              sort_stable_contract) as (rest & H & _).
  by exists rest.
Defined.

Lemma StronglySorted_weaken {A} (R R' : A → A → Prop) (l : list A) :
  (∀ a b, R a b → R' a b) → StronglySorted R l → StronglySorted R' l.
Proof.
  intros HR. induction 1 as [|a l _ IH Hall]; constructor; [done|].
  eapply Forall_impl; [exact Hall|]. intros b. apply HR.
Qed.

Lemma profit_desc_total (a b : string * Qc) :
  bool_decide (b.2 ≤ a.2)%Qc = true ∨ bool_decide (a.2 ≤ b.2)%Qc = true.
Proof.
  rewrite !bool_decide_eq_true. destruct (total Qcle a.2 b.2); auto.
Qed.

Lemma profit_desc_trans (a b c : string * Qc) :
  bool_decide (b.2 ≤ a.2)%Qc = true → bool_decide (c.2 ≤ b.2)%Qc = true →
  bool_decide (c.2 ≤ a.2)%Qc = true.
Proof.
  rewrite !bool_decide_eq_true. intros. by eapply Qcle_trans.
Qed.

(** The "Profit by Category" chart shows every category of the working
    rows once, in descending order of summed profit, and its bars add up
    to the profit of the rows that have a category. *)
Theorem category_profit_bars sort_values (data : list Row)
    (th : Theme) (g : Granularity) (sel : Selection) (kpi : Metric) :
  sort_contract sort_values →
  working_rows sel data ≠ [] →
  ∃ refs w bars,
    run sort_values data (mkInputs th g sel kpi) = Ok (refs, w) ∧
    BarCategoryProfit bars ∈ page w ∧
    bars.*1 ≡ₚ options category (working_rows sel data) ∧
    StronglySorted (λ a b : string * Qc, (b.2 ≤ a.2)%Qc) bars ∧
    series_sum bars.*2
    = series_sum (profit <$> filter (λ r, is_Some (category r))
                               (working_rows sel data)).
Proof.
  intros Hsort Hne.
  destruct (run_page_with_rows sort_values data th g sel kpi Hne)
    as (refs & w & k & E & Hp).
  set (grouped := grouped_sum category profit (working_rows sel data)).
  destruct (Hsort _ (λ a b : string * Qc, bool_decide (b.2 ≤ a.2)%Qc) grouped)
    as [Hperm Hsorted].
  { apply profit_desc_total. }
  { intros a b c. apply profit_desc_trans. }
  pose proof (grouped_sum_keys category profit (working_rows sel data))
    as Hkeys.
  pose proof (grouped_sum_total category profit (working_rows sel data))
    as Hsum.
  eexists refs, w, _. split; [exact E|]. split_and!.
  - rewrite Hp, !elem_of_app. right. right. unfold chart_elements.
    rewrite !elem_of_cons. do 6 right. left. reflexivity.
  - cbn [rows frame_of]. fold grouped. rewrite Hperm.
    unfold grouped. by rewrite Hkeys.
  - cbn [rows frame_of]. fold grouped.
    eapply StronglySorted_weaken; [|exact Hsorted].
    intros a b. by rewrite bool_decide_eq_true.
  - cbn [rows frame_of]. fold grouped. rewrite <- Hsum.
    apply series_sum_perm. by rewrite Hperm.
Qed.

Lemma category_profit_bars_witness :
  sort_contract sort_stable ∧
  working_rows select_all sample_data ≠ [] ∧
  ∃ refs w bars,
    run sort_stable sample_data (mkInputs Dark Monthly select_all KSales)
    = Ok (refs, w) ∧
    BarCategoryProfit bars ∈ page w ∧
    bars.*1 ≡ₚ options category (working_rows select_all sample_data).
Proof.
  assert (H : working_rows select_all sample_data ≠ []) by by vm_compute.
  split; [exact sort_stable_contract|]. split; [exact H|].
  destruct (category_profit_bars sort_stable sample_data Dark Monthly
              select_all KSales sort_stable_contract H)
    as (refs & w & bars & E & Hin & Hk & _).
  by exists refs, w, bars.
Defined.

(** ** A short time series *)

(** When the time series has fewer buckets than the rolling window (for
    instance a Daily view of less than 30 days), the rolling-average
    column is NaN at every position: no average is drawn at all. *)
Theorem rolling_undefined_on_short_series (g : Granularity) (kpi : Metric)
    (rs : list Row) :
  (length (resample g rs) < rolling_window g)%nat →
  (time_series g kpi rs).*2 = replicate (length (resample g rs)) None.
Proof.
  intros Hshort. set (ys := metric_value kpi <$> resample g rs).
  assert (Hlen : length ys = length (resample g rs))
    by (unfold ys; by rewrite length_fmap).
  assert (Hroll : (time_series g kpi rs).*2
                  = rolling_mean (rolling_window g) ys).
  { unfold time_series. fold ys. apply snd_zip.
    rewrite rolling_mean_length, length_zip, length_fmap. lia. }
  rewrite Hroll. apply list_eq. intros i.
  destruct (decide (i < length ys)%nat) as [Hi|Hi].
  - rewrite rolling_mean_early by lia.
    symmetry. apply lookup_replicate_2. lia.
  - rewrite !lookup_ge_None_2; [done| |].
    + rewrite length_replicate. lia.
    + rewrite rolling_mean_length. lia.
Qed.

Lemma rolling_undefined_on_short_series_witness :
  (length (resample Daily sample_data) < rolling_window Daily)%nat ∧
  (time_series Daily KSales sample_data).*2
  = replicate (length (resample Daily sample_data)) None.
Proof.
  assert (H : (length (resample Daily sample_data) < rolling_window Daily)%nat)
    by (vm_compute; lia).
  split; [exact H|].
  apply (rolling_undefined_on_short_series Daily KSales sample_data H).
Defined.

(** ** A date range that matches nothing *)

(** With at least one loaded row and selections the multiselects can
    return, the working data set is without rows only because no filtered
    row has its order date in the chosen range.  The run then still
    completes: after the sidebar, whose date inputs were given the bounds
    of the filtered frame, the page shows the KPI tiles with all five
    values 0, the gauge at 0 with a red bar, and the "no data" warning,
    and nothing else; the chart section is skipped, so the working data
    set stays without rows and without an assigned column. *)
Theorem empty_result_run sort_values (data : list Row) (inp : Inputs) :
  data ≠ [] →
  offered (selection inp) data →
  working_rows (selection inp) data = [] →
  let sel := selection inp in
  ∃ refs w lo hi,
    run sort_values data inp = Ok (refs, w) ∧
    subcategory_step sel data ≠ [] ∧
    (∀ r, r ∈ subcategory_step sel data →
          ¬ in_range (from_date sel) (to_date sel) r) ∧
    date_bounds (subcategory_step sel data) = Some (lo, hi) ∧
    heap w !! df refs = Some (frame_of []) ∧
    page w =
      [Multiselect "Region(s)" (all_regions sel data);
       Multiselect "State(s)" (all_states sel data);
       Multiselect "Category(ies)" (all_categories sel data);
       Multiselect "Sub-Category(ies)" (all_subcategories sel data);
       DateInputs (Some (lo, hi))]
      ++ (if bool_decide (from_date sel > to_date sel)
          then [SidebarError "From Date must be earlier than To Date."]
          else [])
      ++ [KpiTiles zero_kpis red; Gauge 0%Qc red; no_data_warning].
Proof.
  intros Hne Hoff Hw sel.
  destruct (run_spec sort_values data inp)
    as (refs & w & k & E & Ek & _ & _ & _ & Hd & Hp).
  pose proof (subcategory_step_offered _ _ Hne Hoff) as Hsub.
  destruct (date_bounds_is_Some _ Hsub) as (lo & hi & Hb).
  fold sel in Hw, Hsub, Hb, Ek, Hd, Hp.
  rewrite Hw in Ek, Hd, Hp. cbn [empty frame_of rows] in Hd, Hp.
  unfold frame_of in Ek. rewrite compute_kpis_empty in Ek.
  injection Ek as <-.
  exists refs, w, lo, hi. split; [exact E|]. split; [exact Hsub|]. split.
  { intros r Hr Hin. unfold working_rows in Hw.
    rewrite date_filter_range in Hw.
    assert (Hr' : r ∈ filter (in_range (from_date sel) (to_date sel))
                        (subcategory_step sel data))
      by by apply list_elem_of_filter.
    rewrite Hw in Hr'. by apply elem_of_nil in Hr'. }
  split; [exact Hb|]. split; [exact Hd|].
  rewrite Hp. unfold sidebar_elements.
  assert (empty (frame_of (subcategory_step sel data)) = false) as ->.
  { unfold empty. cbn [rows frame_of]. by destruct (subcategory_step sel data). }
  rewrite Hb. cbn [margin_rate zero_kpis]. rewrite Qcmult_0_l.
  assert (margin_color 0%Qc = red) as -> by by vm_compute.
  by rewrite <- app_assoc.
Qed.

Lemma empty_result_run_witness :
  gap_data ≠ [] ∧
  offered select_gap_day gap_data ∧
  dates_offered select_gap_day
    (date_bounds (subcategory_step select_gap_day gap_data)) ∧
  working_rows select_gap_day gap_data = [] ∧
  ∃ refs w lo hi,
    run sort_stable gap_data (sample_inputs Weekly select_gap_day)
    = Ok (refs, w) ∧
    subcategory_step select_gap_day gap_data ≠ [] ∧
    (∀ r, r ∈ subcategory_step select_gap_day gap_data →
          ¬ in_range (from_date select_gap_day) (to_date select_gap_day) r) ∧
    date_bounds (subcategory_step select_gap_day gap_data) = Some (lo, hi) ∧
    heap w !! df refs = Some (frame_of []) ∧
    page w =
      [Multiselect "Region(s)" (all_regions select_gap_day gap_data);
       Multiselect "State(s)" (all_states select_gap_day gap_data);
       Multiselect "Category(ies)" (all_categories select_gap_day gap_data);
       Multiselect "Sub-Category(ies)"
         (all_subcategories select_gap_day gap_data);
       DateInputs (Some (lo, hi))]
      ++ (if bool_decide (from_date select_gap_day > to_date select_gap_day)
          then [SidebarError "From Date must be earlier than To Date."]
          else [])
      ++ [KpiTiles zero_kpis red; Gauge 0%Qc red; no_data_warning].
Proof.
  assert (H1 : gap_data ≠ []) by discriminate.
  assert (H2 : offered select_gap_day gap_data)
    by (unfold offered; split_and!; apply list_subseteq_nil).
  assert (H3 : working_rows select_gap_day gap_data = []) by reflexivity.
  split; [exact H1|]. split; [exact H2|].
  split; [by vm_compute|]. split; [exact H3|].
  apply (empty_result_run sort_stable gap_data
           (sample_inputs Weekly select_gap_day) H1 H2 H3).
Defined.

(** With at least one loaded row, selections the multiselects can return
    never leave the filtered frame without rows.  The date inputs
    therefore always get the earliest and the latest order date of the
    filtered frame as their bounds, and never the dates of the whole
    loaded data set that the script keeps as a fallback. *)
Theorem date_inputs_bounds_of_filtered_frame (sel : Selection)
    (data : list Row) :
  data ≠ [] →
  offered sel data →
  region_step sel data ≠ [] ∧ state_step sel data ≠ [] ∧
  category_step sel data ≠ [] ∧ subcategory_step sel data ≠ [] ∧
  ∃ refs w lo hi,
    sidebar sel {| heap := [frame_of data]; page := [] |} = Ok (refs, w) ∧
    date_bounds (subcategory_step sel data) = Some (lo, hi) ∧
    (∀ b, DateInputs b ∈ page w ↔ b = Some (lo, hi)) ∧
    (∀ r, r ∈ subcategory_step sel data → lo ≤ order_date r ≤ hi) ∧
    (∃ r, r ∈ subcategory_step sel data ∧ order_date r = lo) ∧
    (∃ r, r ∈ subcategory_step sel data ∧ order_date r = hi).
Proof.
  intros Hne Hoff.
  pose proof (subcategory_step_offered _ _ Hne Hoff) as Hsub.
  destruct (working_rows_sublist_steps sel data) as (_ & S4 & S3 & S2 & _).
  assert (N3 : category_step sel data ≠ []).
  { intros Hnil. rewrite Hnil in S4. by apply sublist_nil_r in S4. }
  assert (N2 : state_step sel data ≠ []).
  { intros Hnil. rewrite Hnil in S3. by apply sublist_nil_r in S3. }
  assert (N1 : region_step sel data ≠ []).
  { intros Hnil. rewrite Hnil in S2. by apply sublist_nil_r in S2. }
  split_and!; try done.
  destruct (sidebar_spec sel data)
    as (refs & w & E & _ & _ & _ & _ & _ & _ & _ & Hp).
  destruct (subcategory_step sel data) as [|r0 rs] eqn:Es; [done|].
  unfold empty in Hp. cbn [rows frame_of] in Hp.
  eexists refs, w, _, _. split; [exact E|]. split; [reflexivity|].
  set (ds := order_date <$> r0 :: rs).
  destruct (foldr_min_spec (order_date r0) ds) as (Hmin_in & _ & Hmin).
  destruct (foldr_max_spec (order_date r0) ds) as (Hmax_in & _ & Hmax).
  assert (Hds : ∀ r, r ∈ r0 :: rs → order_date r ∈ ds).
  { intros r Hr. by apply list_elem_of_fmap_2. }
  assert (Hback : ∀ d, d = order_date r0 ∨ d ∈ ds →
            ∃ r, r ∈ r0 :: rs ∧ order_date r = d).
  { intros d [->|Hd].
    - exists r0. split; [by left|done].
    - apply list_elem_of_fmap in Hd as (r & -> & Hr). by exists r. }
  split_and!.
  - intros b. rewrite Hp, elem_of_app.
    destruct (bool_decide (from_date sel > to_date sel));
      rewrite !elem_of_cons, !elem_of_nil; naive_solver.
  - intros r Hr. split; [apply Hmin|apply Hmax]; by apply Hds.
  - by apply Hback.
  - by apply Hback.
Qed.

Lemma date_inputs_bounds_of_filtered_frame_witness :
  sample_data ≠ [] ∧
  offered select_east sample_data ∧
  subcategory_step select_east sample_data ≠ [] ∧
  ∃ refs w,
    sidebar select_east {| heap := [frame_of sample_data]; page := [] |}
    = Ok (refs, w) ∧
    ∀ b, DateInputs b ∈ page w
         ↔ b = Some (to_datetime 19358, to_datetime 19360).
Proof.
  assert (H1 : sample_data ≠ []) by discriminate.
  assert (H2 : offered select_east sample_data).
  { unfold offered. split_and!; try apply list_subseteq_nil.
    intros s Hs. apply list_elem_of_singleton in Hs as ->.
    vm_compute. left. }
  split; [exact H1|]. split; [exact H2|].
  destruct (date_inputs_bounds_of_filtered_frame select_east sample_data H1 H2)
    as (_ & _ & _ & N & refs & w & lo & hi & E & Hb & Hpage & _).
  split; [exact N|]. exists refs, w. split; [exact E|].
  assert (Hlh : Some (lo, hi) = Some (to_datetime 19358, to_datetime 19360))
    by (rewrite <- Hb; reflexivity).
  rewrite <- Hlh. exact Hpage.
Defined.

(** ** Narrowing *)

Lemma options_sublist (col : Row → option string) (rs' rs : list Row) :
  rs' `sublist_of` rs → options col rs' ⊆ options col rs.
Proof.
  intros Hsub s. rewrite !options_elem. intros (r & Hr & Hs).
  exists r. split; [|done]. by eapply sublist_subseteq.
Qed.

(** Progressive narrowing: the options offered for state, category and
    sub-category are values that occur in the loaded data, and a
    selection that adds restrictions can only shrink the option lists of
    the later multiselects, never add a value to them. *)
Theorem cascade_options_narrow (sel' sel : Selection) (data : list Row) :
  restricts sel' sel →
  all_states sel data ⊆ options state data ∧
  all_categories sel data ⊆ options category data ∧
  all_subcategories sel data ⊆ options sub_category data ∧
  all_states sel' data ⊆ all_states sel data ∧
  all_categories sel' data ⊆ all_categories sel data ∧
  all_subcategories sel' data ⊆ all_subcategories sel data.
Proof.
  intros (Hr & Hs & Hc & _).
  destruct (working_rows_sublist_steps sel data) as (_ & _ & H3 & H4 & H5).
  unfold all_states, all_categories, all_subcategories.
  assert (M1 : region_step sel' data `sublist_of` region_step sel data).
  { by apply categorical_filter_mono. }
  assert (M2 : state_step sel' data `sublist_of` state_step sel data).
  { by apply categorical_filter_mono. }
  assert (M3 : category_step sel' data `sublist_of` category_step sel data).
  { by apply categorical_filter_mono. }
  split_and!; apply options_sublist; try done.
  - by etrans.
  - etrans; [exact H3|]. by etrans.
Qed.

Lemma cascade_options_narrow_witness :
  restricts select_east select_all ∧
  all_states select_east sample_data ⊆ all_states select_all sample_data.
Proof.
  assert (H : restricts select_east select_all).
  { unfold restricts, narrower. simpl. split_and!; auto; lia. }
  split; [exact H|].
  apply (cascade_options_narrow select_east select_all sample_data H).
Defined.

(** Filtering again changes nothing: the working data set passed through
    the same selection once more comes back unchanged. *)
Theorem working_rows_idempotent (sel : Selection) (data : list Row) :
  working_rows sel (working_rows sel data) = working_rows sel data.
Proof.
  rewrite (working_rows_filter sel (working_rows sel data)).
  apply filter_all_in. intros r Hr.
  rewrite (working_rows_filter sel data) in Hr.
  by apply list_elem_of_filter in Hr as [Hr _].
Qed.
